(** * A tool-invocation bridge: the Tool Host (index.js) and the Bridge
      Service (backend.js), shallowly embedded.

    The two programs are JavaScript.  The values they pass around are JSON
    data; the operations they apply to them are property reads,
    truthiness tests ([||], [&&], [!]), string conversion inside template
    literals and strict equality with string literals.  Both programs are
    modelled in a small error monad ([throw] / [try ... catch]); the Bridge
    Service additionally threads its module-level variables and records the
    calls it makes to its collaborators (the MCP client, the OpenAI client,
    the console) in an event log.  A handler is run from its first line to
    its answer: the interleaving of several requests at their [await]
    points is not modelled. *)

From Stdlib Require Import String Ascii List Bool Arith Lia DecimalString.
Import ListNotations.
Local Open Scope string_scope.
Local Open Scope list_scope.
Set Warnings "-register-all".

(** String concatenation, as [+] and template literals do it. *)
Infix "+++" := String.append (right associativity, at level 60).

(* ================================================================== *)
(** ** JavaScript values                                                *)
(* ================================================================== *)

Module JS.

(** JSON-shaped JavaScript values.  A string is a sequence of characters;
    the programs only concatenate and compare strings.  A number is held
    as the text JavaScript's [Number::toString] gives for it ("0", "3",
    "1.5", "NaN", "Infinity", ...; both zeros print as "0"): the programs
    never do arithmetic on a value, they only test, print and forward it.
    An object is the list of its own properties in property order. *)
Inductive value : Type :=
| VUndef
| VNull
| VBool (b : bool)
| VNum (repr : string)
| VStr (s : string)
| VArr (items : list value)
| VObj (fields : list (string * value)).

(** A thrown error object: its class name and its [message]. *)
Record exn : Type := mkExn { exn_name : string; exn_message : string }.

Definition Error (msg : string) : exn := mkExn "Error" msg.
Definition TypeError (msg : string) : exn := mkExn "TypeError" msg.

(** The completion of an expression or of an awaited promise. *)
Inductive outcome (A : Type) : Type :=
| Ok (a : A)
| Throw (e : exn).
Arguments Ok {A} a.
Arguments Throw {A} e.

Definition obind {A B} (o : outcome A) (f : A -> outcome B) : outcome B :=
  match o with
  | Ok a => f a
  | Throw e => Throw e
  end.

(** [lookup k fields]: the own property [k] of an object. *)
Fixpoint lookup (k : string) (fields : list (string * value)) : option value :=
  match fields with
  | [] => None
  | (k', v) :: rest => if String.eqb k k' then Some v else lookup k rest
  end.

(** The value of [object.k]: [undefined] when the object has no such
    property. *)
Definition field (k : string) (fields : list (string * value)) : value :=
  match lookup k fields with
  | Some x => x
  | None => VUndef
  end.

(** A value other than [undefined] and [null]. *)
Definition present (v : value) : bool :=
  match v with
  | VUndef | VNull => false
  | _ => true
  end.

(** ToBoolean. *)
Definition truthy (v : value) : bool :=
  match v with
  | VUndef | VNull => false
  | VBool b => b
  | VNum repr => negb (String.eqb repr "0" || String.eqb repr "NaN")
  | VStr s => negb (String.eqb s "")
  | VArr _ | VObj _ => true
  end.

(** [a || b] on values. *)
Definition or_else (a b : value) : value := if truthy a then a else b.

Definition nat_text (n : nat) : string := NilZero.string_of_uint (Nat.to_uint n).

(** A property key that is a canonical array index. *)
Definition index_of_key (k : string) : option nat :=
  match NilZero.uint_of_string k with
  | Some u => let n := Nat.of_uint u in
              if String.eqb (nat_text n) k then Some n else None
  | None => None
  end.

Definition char_at (s : string) (i : nat) : value :=
  match String.get i s with
  | Some c => VStr (String c EmptyString)
  | None => VUndef
  end.

(** [v.k] / [v[k]] and the reads a destructuring pattern [{ k } = v]
    performs.  Reading from [undefined] or [null] throws a TypeError.  Own
    properties only: members inherited from a prototype ([toString],
    [constructor], [map], ...) are not values of this type, and the
    programs read none of them through this function. *)
Definition get_prop (v : value) (k : string) : outcome value :=
  match v with
  | VUndef =>
      Throw (TypeError ("Cannot read properties of undefined (reading '" +++ k +++ "')"))
  | VNull =>
      Throw (TypeError ("Cannot read properties of null (reading '" +++ k +++ "')"))
  | VObj fields =>
      Ok (field k fields)
  | VArr items =>
      if String.eqb k "length" then Ok (VNum (nat_text (length items)))
      else match index_of_key k with
           | Some i => Ok (nth i items VUndef)
           | None => Ok VUndef
           end
  | VStr s =>
      if String.eqb k "length" then Ok (VNum (nat_text (String.length s)))
      else match index_of_key k with
           | Some i => Ok (char_at s i)
           | None => Ok VUndef
           end
  | VBool _ | VNum _ => Ok VUndef
  end.

(** ToString, as a template literal [`${v}`] applies it.  An array prints
    its elements joined by commas, [undefined] and [null] elements as the
    empty string.  A plain object prints as "[object Object]" through the
    inherited [toString]; when it has an own property of that name (which
    cannot be a function here) no conversion method is left and the
    conversion throws. *)
Fixpoint to_string (v : value) : outcome string :=
  match v with
  | VUndef => Ok "undefined"
  | VNull => Ok "null"
  | VBool true => Ok "true"
  | VBool false => Ok "false"
  | VNum repr => Ok repr
  | VStr s => Ok s
  | VArr items =>
      let element (x : value) : outcome string :=
        match x with
        | VUndef | VNull => Ok ""
        | _ => to_string x
        end in
      (fix join (l : list value) : outcome string :=
         match l with
         | [] => Ok ""
         | [x] => element x
         | x :: rest =>
             obind (element x) (fun sx =>
             obind (join rest) (fun sr => Ok (sx +++ "," +++ sr)))
         end) items
  | VObj fields =>
      match lookup "toString" fields with
      | Some _ => Throw (TypeError "Cannot convert object to primitive value")
      | None => Ok "[object Object]"
      end
  end.

End JS.
Import JS.

(* ================================================================== *)
(** ** The protocol objects both programs exchange                      *)
(* ================================================================== *)

Module MCP.

(** The result object of a tool call: [{ content: [...] }] and whatever
    further members the protocol allows.  The Bridge Service tests
    [toolResult.content && toolResult.content.length > 0]; the protocol
    library hands it a result whose [content], when present, is an array. *)
Record CallToolResult : Type := mkCallToolResult {
  content : option (list value);
  extra : list (string * value)
}.

Definition CallToolResult_value (r : CallToolResult) : value :=
  VObj (match content r with
        | Some blocks => [("content", VArr blocks)]
        | None => []
        end ++ extra r).

Definition text_block (text : string) : value :=
  VObj [("type", VStr "text"); ("text", VStr text)].

End MCP.
Import MCP.

(* ================================================================== *)
(** ** The Tool Host: index.js                                          *)
(* ================================================================== *)

Module ToolHost.

(** What the process has done to the outside: the lines written with
    [console.error]. *)
Record HostWorld : Type := mkHostWorld { stderr : list string }.

(** A request handler: it may touch the world and it completes or throws. *)
Definition Handler (A : Type) : Type := HostWorld -> outcome A * HostWorld.

(** index.js, lines 23-42: the [ListToolsRequestSchema] handler. *)
Definition echo_descriptor : value :=
  VObj [("name", VStr "echo");
        ("description", VStr "Echo back the input message");
        ("inputSchema",
          VObj [("type", VStr "object");
                ("properties",
                  VObj [("message",
                          VObj [("type", VStr "string");
                                ("description", VStr "The message to echo back")])]);
                ("required", VArr [VStr "message"])])].

Definition ListTools_handler : Handler value :=
  fun w => (Ok (VObj [("tools", VArr [echo_descriptor])]), w).

(** index.js, lines 45-60: the [CallToolRequestSchema] handler, applied to
    [request.params = { name, arguments: args }].  The request schema makes
    [name] a string; [args] is whatever value the caller sent. *)
Definition CallTool_handler (name : string) (args : value) : Handler CallToolResult :=
  fun w =>
    if String.eqb name "echo" then
      (obind (get_prop args "message") (fun message =>
       obind (to_string message) (fun shown =>
       Ok (mkCallToolResult (Some [text_block ("Echo: " +++ shown)]) []))),
       w)
    else
      (Throw (Error ("Unknown tool: " +++ name)), w).

(** The [name] members of the catalog a [tools/list] answer carries. *)
Definition advertised_names (listing : outcome value) : list value :=
  match listing with
  | Ok (VObj fields) =>
      match field "tools" fields with
      | VArr descriptors =>
          map (fun d => match d with
                        | VObj members => field "name" members
                        | _ => VUndef
                        end) descriptors
      | _ => []
      end
  | _ => []
  end.

(** index.js, lines 63-67: [main], once the transport is connected. *)
Definition main_started : Handler unit :=
  fun w => (Ok tt, mkHostWorld (stderr w ++ ["Basic MCP server running on stdio"])).

End ToolHost.

(* ================================================================== *)
(** ** The Bridge Service: backend.js                                   *)
(* ================================================================== *)

Module Bridge.

(** *** The objects of the OpenAI client *)

(** [toolCall.function = { name, arguments }], [arguments] being JSON text. *)
Record FunctionCall : Type := mkFunctionCall {
  fn_name : string;
  fn_arguments : string
}.

Record ToolCall : Type := mkToolCall {
  tc_id : string;
  tc_function : FunctionCall
}.

(** [completion.choices[i].message]: [content] is a string or [null],
    [tool_calls] an array or absent. *)
Record AssistantMessage : Type := mkAssistantMessage {
  am_content : option string;
  am_tool_calls : option (list ToolCall)
}.

Record Choice : Type := mkChoice { message : AssistantMessage }.

Record Completion : Type := mkCompletion { choices : list Choice }.

(** An element of a [messages] array: an object built here or supplied by
    the caller, or the assistant message of a completion handed back as it
    came. *)
Inductive ChatMessage : Type :=
| Plain (v : value)
| Assistant (m : AssistantMessage).

(** The argument of [openai.chat.completions.create]; an [undefined]
    member is an absent one. *)
Record CompletionRequest : Type := mkCompletionRequest {
  model : string;
  messages : list ChatMessage;
  tools : option (list value);
  tool_choice : option string
}.

(** *** Module-level state and the outside *)

(** [new StdioClientTransport({ command, args, env: process.env })]. *)
Record Transport : Type := mkTransport {
  command : string;
  args : list string
}.

(** [new Client({ name, version }, { capabilities: {} })]. *)
Record Client : Type := mkClient {
  client_name : string;
  client_version : string
}.

(** An Express response: [res.json(body)] answers 200,
    [res.status(500).json(body)] answers 500. *)
Record Response : Type := mkResponse {
  status : nat;
  body : value
}.

(** Every call the service makes to a collaborator, with its completion. *)
Inductive Event : Type :=
| EvConsoleLog (text : string)
| EvConsoleError (text : string) (error : exn)
| EvConnect (transport : Transport) (r : outcome unit)
| EvListTools (r : outcome value)
| EvCallTool (name : value) (arguments : value) (r : outcome CallToolResult)
| EvCreate (request : CompletionRequest) (r : outcome Completion).

(** What the service is run against.  [S] is the state of everything
    outside the process (the Tool Host behind the channel, the LLM
    backend); the collaborators are arbitrary functions of it.
    [JSON_parse] and [JSON_stringify] are the runtime's built-ins;
    [JSON_stringify] is only applied to objects, for which it returns a
    string. *)
Record Env (S : Type) : Type := mkEnv {
  dirname : string;
  process_env_OPENAI_API_KEY : option string;
  JSON_parse : string -> outcome value;
  JSON_stringify : value -> string;
  client_connect : Transport -> S -> outcome unit * S;
  client_listTools : S -> outcome value * S;
  client_callTool : value -> value -> S -> outcome CallToolResult * S;
  completions_create : CompletionRequest -> S -> outcome Completion * S
}.
Arguments dirname {S} _.
Arguments process_env_OPENAI_API_KEY {S} _.
Arguments JSON_parse {S} _ _.
Arguments JSON_stringify {S} _ _.
Arguments client_connect {S} _ _ _.
Arguments client_listTools {S} _ _.
Arguments client_callTool {S} _ _ _ _.
Arguments completions_create {S} _ _ _.

(** backend.js, lines 20-21, and the outside. *)
Record World (S : Type) : Type := mkWorld {
  mcpClient : option Client;
  mcpTransport : option Transport;
  outside : S
}.
Arguments mkWorld {S} _ _ _.
Arguments mcpClient {S} _.
Arguments mcpTransport {S} _.
Arguments outside {S} _.

(** A computation of the service: from a world to a completion, the next
    world and the events it emitted, in order. *)
Definition M (S A : Type) : Type := World S -> outcome A * World S * list Event.

Definition ret {S A} (a : A) : M S A := fun w => (Ok a, w, []).

Definition throw {S A} (e : exn) : M S A := fun w => (Throw e, w, []).

Definition lift {S A} (o : outcome A) : M S A := fun w => (o, w, []).

Definition bind {S A B} (m : M S A) (f : A -> M S B) : M S B :=
  fun w =>
    match m w with
    | (Ok a, w1, evs1) =>
        match f a w1 with
        | (r, w2, evs2) => (r, w2, evs1 ++ evs2)
        end
    | (Throw e, w1, evs1) => (Throw e, w1, evs1)
    end.

(** [try { m } catch (error) { handler error }]. *)
Definition try_catch {S A} (m : M S A) (handler : exn -> M S A) : M S A :=
  fun w =>
    match m w with
    | (Ok a, w1, evs1) => (Ok a, w1, evs1)
    | (Throw e, w1, evs1) =>
        match handler e w1 with
        | (r, w2, evs2) => (r, w2, evs1 ++ evs2)
        end
    end.

Definition emit {S} (ev : Event) : M S unit := fun w => (Ok tt, w, [ev]).

Notation "x <- m ;; k" := (bind m (fun x => k))
  (at level 61, m at next level, right associativity).
Notation "m ;;; k" := (bind m (fun _ => k))
  (at level 61, right associativity).

Section Service.

Context {S : Type} (env : Env S).

(** *** Primitive steps *)

Definition console_log (text : string) : M S unit := emit (EvConsoleLog text).

Definition console_error (text : string) (error : exn) : M S unit :=
  emit (EvConsoleError text error).

Definition set_mcpTransport (t : Transport) : M S unit :=
  fun w => (Ok tt, mkWorld (mcpClient w) (Some t) (outside w), []).

Definition set_mcpClient (c : Client) : M S unit :=
  fun w => (Ok tt, mkWorld (Some c) (mcpTransport w) (outside w), []).

(** A method call [mcpClient.method(...)]: a TypeError while the variable
    is [null], the collaborator's answer otherwise. *)
Definition on_client {A} (method : string)
    (call : S -> outcome A * S) (record : outcome A -> Event) : M S A :=
  fun w =>
    match mcpClient w with
    | None =>
        (Throw (TypeError ("Cannot read properties of null (reading '" +++ method +++ "')")),
         w, [])
    | Some _ =>
        match call (outside w) with
        | (r, s) => (r, mkWorld (mcpClient w) (mcpTransport w) s, [record r])
        end
    end.

Definition mcpClient_connect (t : Transport) : M S unit :=
  on_client "connect" (client_connect env t) (EvConnect t).

Definition mcpClient_listTools : M S value :=
  on_client "listTools" (client_listTools env) EvListTools.

Definition mcpClient_callTool (name arguments : value) : M S CallToolResult :=
  on_client "callTool" (client_callTool env name arguments) (EvCallTool name arguments).

Definition openai_chat_completions_create (request : CompletionRequest) : M S Completion :=
  fun w =>
    match completions_create env request (outside w) with
    | (r, s) => (r, mkWorld (mcpClient w) (mcpTransport w) s, [EvCreate request r])
    end.

Definition res_json (v : value) : M S Response := ret (mkResponse 200 v).

Definition res_status_500_json (v : value) : M S Response := ret (mkResponse 500 v).

(** [path.join] of a directory name and plain segment names. *)
Definition join (segments : list string) : string := String.concat "/" segments.

(** backend.js, line 24. *)
Definition OPENAI_API_KEY : string :=
  match process_env_OPENAI_API_KEY env with
  | Some key => if String.eqb key "" then "None" else key
  | None => "None"
  end.

(** *** backend.js, lines 32-59 *)
Definition initMCPClient : M S unit :=
  try_catch
    (let pythonPath := join [dirname env; "venv"; "bin"; "python"] in
     let serverPath := join [dirname env; "server.py"] in
     let transport := mkTransport pythonPath [serverPath] in
     set_mcpTransport transport ;;;
     set_mcpClient (mkClient "chatbot-client" "1.0.0") ;;;
     mcpClient_connect transport ;;;
     console_log "Connected to MCP server")
    (fun error =>
       console_error "Failed to connect to MCP server:" error ;;;
       throw error).

(** [if (!mcpClient) { await initMCPClient(); }] *)
Definition ensure_client : M S unit :=
  fun w =>
    match mcpClient w with
    | None => initMCPClient w
    | Some _ => (Ok tt, w, [])
    end.

(** The reads of a destructuring declaration [const { k, ... } = source]. *)
Definition destructure (source : value) (k : string) : outcome value :=
  match source with
  | VUndef =>
      Throw (TypeError ("Cannot destructure property '" +++ k +++ "' of 'req.body' as it is undefined."))
  | VNull =>
      Throw (TypeError ("Cannot destructure property '" +++ k +++ "' of 'req.body' as it is null."))
  | _ => get_prop source k
  end.

Definition error_body (error : exn) : value :=
  VObj [("error", VStr (exn_message error))].

(** *** backend.js, lines 62-74: GET /api/tools *)
Definition tools_handler : M S Response :=
  try_catch
    (ensure_client ;;;
     tools <- mcpClient_listTools ;;
     res_json tools)
    (fun error =>
       console_error "Error listing tools:" error ;;;
       res_status_500_json (error_body error)).

(** *** backend.js, lines 77-95: POST /api/tools/call *)
Definition tools_call_handler (req_body : value) : M S Response :=
  try_catch
    (name <- lift (destructure req_body "name") ;;
     args <- lift (destructure req_body "arguments") ;;
     ensure_client ;;;
     result <- mcpClient_callTool name (or_else args (VObj [])) ;;
     res_json (CallToolResult_value result))
    (fun error =>
       console_error "Error calling tool:" error ;;;
       res_status_500_json (error_body error)).

(** *** backend.js, lines 98-107 *)
Definition convert_tool (tool : value) : outcome value :=
  obind (get_prop tool "name") (fun name =>
  obind (get_prop tool "description") (fun description =>
  obind (get_prop tool "inputSchema") (fun inputSchema =>
  Ok (VObj [("type", VStr "function");
            ("function",
              VObj [("name", name);
                    ("description", or_else description (VStr ""));
                    ("parameters", or_else inputSchema (VObj []))])])))).

(** [array.map(f)] with a callback that may throw. *)
Fixpoint map_outcome {A B} (f : A -> outcome B) (l : list A) : outcome (list B) :=
  match l with
  | [] => Ok []
  | x :: rest =>
      obind (f x) (fun y =>
      obind (map_outcome f rest) (fun ys => Ok (y :: ys)))
  end.

Definition convertMCPToolsToOpenAI (mcpTools : value) : outcome (list value) :=
  obind (get_prop mcpTools "tools") (fun tools =>
  match tools with
  | VArr items => map_outcome convert_tool items
  | VUndef => Throw (TypeError "Cannot read properties of undefined (reading 'map')")
  | VNull => Throw (TypeError "Cannot read properties of null (reading 'map')")
  | _ => Throw (TypeError "mcpTools.tools.map is not a function")
  end).

(** *** backend.js, lines 110-205: POST /api/chat *)

Definition system_turn : ChatMessage :=
  Plain (VObj [("role", VStr "system");
               ("content", VStr "You are a helpful assistant that can use tools to help users. When you need to use a tool, call it with the appropriate parameters.")]).

Definition user_turn (message : value) : ChatMessage :=
  Plain (VObj [("role", VStr "user"); ("content", message)]).

(** [history = []] in the destructuring pattern: the default replaces
    [undefined] only. *)
Definition default_history (history : value) : value :=
  match history with
  | VUndef => VArr []
  | _ => history
  end.

(** Whether a byte continues a UTF-8 sequence (its two high bits are 10). *)
Definition is_continuation (c : ascii) : bool :=
  match c with
  | Ascii _ _ _ _ _ _ false true => true
  | _ => false
  end.

(** The continuation bytes a text starts with, and the code points that
    follow them, each with the bytes that encode it. *)
Fixpoint split_code_points (s : string) : string * list string :=
  match s with
  | EmptyString => (EmptyString, [])
  | String c rest =>
      match split_code_points rest with
      | (continuation, points) =>
          if is_continuation c then (String c continuation, points)
          else (EmptyString, String c continuation :: points)
      end
  end.

(** What iterating a string yields: one string per code point.  A text
    is held as its UTF-8 bytes, so a code point is a leading byte with the
    continuation bytes after it (bytes that continue nothing, which no
    decoded text has, stay together). *)
Definition characters (s : string) : list value :=
  match split_code_points s with
  | (EmptyString, points) => map VStr points
  | (stray, points) => map VStr (stray :: points)
  end.

(** [...history] inside an array literal: arrays and strings are the
    iterable values. *)
Definition spread (history : value) : outcome (list value) :=
  match history with
  | VArr items => Ok items
  | VStr s => Ok (characters s)
  | _ => Throw (TypeError "history is not iterable")
  end.

(** [completion.choices[0].message] *)
Definition first_message (completion : Completion) : outcome AssistantMessage :=
  match choices completion with
  | choice :: _ => Ok (message choice)
  | [] => Throw (TypeError "Cannot read properties of undefined (reading 'message')")
  end.

(** [s || fallback] for [s] a string or [null]. *)
Definition text_or (s : option string) (fallback : string) : string :=
  match s with
  | Some text => if String.eqb text "" then fallback else text
  | None => fallback
  end.

(** [assistantMessage.tool_calls && assistantMessage.tool_calls.length > 0] *)
Definition has_tool_calls (assistantMessage : AssistantMessage) : bool :=
  match am_tool_calls assistantMessage with
  | Some tool_calls => Nat.ltb 0 (length tool_calls)
  | None => false
  end.

(** Lines 164-169: the text of a tool result. *)
Definition result_text (toolResult : CallToolResult) : outcome value :=
  match content toolResult with
  | Some (first :: _) =>
      obind (get_prop first "text") (fun text =>
      Ok (or_else text (VStr (JSON_stringify env first))))
  | _ => Ok (VStr (JSON_stringify env (CallToolResult_value toolResult)))
  end.

Definition tool_turn (toolCall : ToolCall) (resultText : value) : value :=
  VObj [("tool_call_id", VStr (tc_id toolCall));
        ("role", VStr "tool");
        ("name", VStr (fn_name (tc_function toolCall)));
        ("content", resultText)].

Definition tool_record (toolName : string) (toolArgs resultText : value) : value :=
  VObj [("name", VStr toolName);
        ("arguments", toolArgs);
        ("result", resultText)].

(** Lines 153-183: the [for ... of] loop over the requested tool calls,
    with the two arrays it pushes to. *)
Fixpoint run_tool_calls (tool_calls : list ToolCall)
    (toolResults toolCalls : list value) : M S (list value * list value) :=
  match tool_calls with
  | [] => ret (toolResults, toolCalls)
  | toolCall :: rest =>
      let toolName := fn_name (tc_function toolCall) in
      toolArgs <- lift (JSON_parse env
                          (text_or (Some (fn_arguments (tc_function toolCall))) "{}")) ;;
      toolResult <- mcpClient_callTool (VStr toolName) toolArgs ;;
      resultText <- lift (result_text toolResult) ;;
      run_tool_calls rest
        (toolResults ++ [tool_turn toolCall resultText])
        (toolCalls ++ [tool_record toolName toolArgs resultText])
  end.

Definition chat_body (content : string) (toolCalls : list value) : value :=
  VObj [("content", VStr content); ("toolCalls", VArr toolCalls)].

(** Lines 143-200: from the first completion to [res.json(response)]. *)
Definition chat_answer (messages : list ChatMessage) (completion : Completion)
    : M S Response :=
  assistantMessage <- lift (first_message completion) ;;
  let content := text_or (am_content assistantMessage) "" in
  if has_tool_calls assistantMessage then
    done <- run_tool_calls
              (match am_tool_calls assistantMessage with Some l => l | None => [] end)
              [] [] ;;
    let '(toolResults, toolCalls) := done in
    let followUpMessages :=
      messages ++ [Assistant assistantMessage] ++ map Plain toolResults in
    followUpCompletion <- openai_chat_completions_create
                            (mkCompletionRequest "gpt-4o-mini" followUpMessages None None) ;;
    followUpMessage <- lift (first_message followUpCompletion) ;;
    res_json (chat_body (text_or (am_content followUpMessage) content) toolCalls)
  else
    res_json (chat_body content []).

(** Lines 112-133: up to the message list. *)
Definition chat_setup (req_body : value) : M S (list value * list ChatMessage) :=
  message <- lift (destructure req_body "message") ;;
  history <- lift (destructure req_body "history") ;;
  ensure_client ;;;
  mcpTools <- mcpClient_listTools ;;
  functions <- lift (convertMCPToolsToOpenAI mcpTools) ;;
  past <- lift (spread (default_history history)) ;;
  ret (functions, [system_turn] ++ map Plain past ++ [user_turn message]).

(** Lines 136-141: the argument of the first completion call. *)
Definition first_request (functions : list value) (messages : list ChatMessage)
    : CompletionRequest :=
  let offered := Nat.ltb 0 (length functions) in
  mkCompletionRequest "gpt-4o-mini" messages
    (if offered then Some functions else None)
    (if offered then Some "auto" else None).

(** Lines 112-200: the [try] block. *)
Definition chat_exchange (req_body : value) : M S Response :=
  setup <- chat_setup req_body ;;
  let '(functions, messages) := setup in
  completion <- openai_chat_completions_create (first_request functions messages) ;;
  chat_answer messages completion.

Definition chat_handler (req_body : value) : M S Response :=
  try_catch
    (chat_exchange req_body)
    (fun error =>
       console_error "Error in chat:" error ;;;
       res_status_500_json (error_body error)).

(** *** backend.js, lines 208-214: GET /api/health *)
Definition openaiConfigured : bool :=
  negb (String.eqb OPENAI_API_KEY "") && negb (String.eqb OPENAI_API_KEY "").

Definition connected (w : World S) : bool :=
  match mcpClient w with
  | Some _ => true
  | None => false
  end.

Definition health_handler : M S Response :=
  fun w =>
    res_json (VObj [("status", VStr "ok");
                    ("connected", VBool (connected w));
                    ("openaiConfigured", VBool openaiConfigured)]) w.

(** *** backend.js, lines 216-219: the [app.listen] callback *)
Definition on_listening : M S unit :=
  console_log "Backend server running on http://localhost:3000" ;;;
  initMCPClient.

End Service.

(** *** Reading an event log *)

Definition tool_call_of (ev : Event) : option (value * value * outcome CallToolResult) :=
  match ev with
  | EvCallTool name arguments r => Some (name, arguments, r)
  | _ => None
  end.

Definition llm_call_of (ev : Event) : option (CompletionRequest * outcome Completion) :=
  match ev with
  | EvCreate request r => Some (request, r)
  | _ => None
  end.

Fixpoint pick {A B} (f : A -> option B) (l : list A) : list B :=
  match l with
  | [] => []
  | x :: rest =>
      match f x with
      | Some y => y :: pick f rest
      | None => pick f rest
      end
  end.

(** The Tool Host [call] operations of a log, in the order made. *)
Definition tool_calls_made (evs : list Event) : list (value * value * outcome CallToolResult) :=
  pick tool_call_of evs.

(** The LLM backend calls of a log, in the order made. *)
Definition llm_calls_made (evs : list Event) : list (CompletionRequest * outcome Completion) :=
  pick llm_call_of evs.

(** A log without any call to the Tool Host's [call] operation or to the
    LLM backend. *)
Definition quiet (evs : list Event) : Prop :=
  tool_calls_made evs = [] /\ llm_calls_made evs = [].

Section Channel.

Context {S : Type} (env : Env S).

(** The two objects [initMCPClient] constructs. *)
Definition the_transport : Transport :=
  mkTransport (join [dirname env; "venv"; "bin"; "python"])
              [join [dirname env; "server.py"]].

Definition the_client : Client := mkClient "chatbot-client" "1.0.0".

(** The handler gets past [if (!mcpClient) await initMCPClient()]: the
    client object exists (it does from the [app.listen] callback on), or
    the connection attempt succeeds. *)
Definition channel_ready (w : World S) : Prop :=
  connected w = true \/
  exists s, client_connect env the_transport (outside w) = (Ok tt, s).

(** The four routes of the Express application. *)
Inductive Request : Type :=
| GET_api_tools
| POST_api_tools_call (req_body : value)
| POST_api_chat (req_body : value)
| GET_api_health.

Definition route (q : Request) : M S Response :=
  match q with
  | GET_api_tools => tools_handler env
  | POST_api_tools_call req_body => tools_call_handler env req_body
  | POST_api_chat req_body => chat_handler env req_body
  | GET_api_health => health_handler env
  end.

(** The worlds in which the server handles a request, one request at a
    time: the one the [app.listen] callback leaves, and the one each
    handled request leaves. *)
Inductive serving (w0 : World S) : World S -> Prop :=
| serving_listening (r : outcome unit) (w : World S) (evs : list Event) :
    on_listening env w0 = (r, w, evs) -> serving w0 w
| serving_request (q : Request) (w w' : World S) (r : outcome Response)
    (evs : list Event) :
    serving w0 w -> route q w = (r, w', evs) -> serving w0 w'.

(** A computation that leaves the client object in place. *)
Definition keeps_client {A} (m : M S A) : Prop :=
  forall w r w1 evs, m w = (r, w1, evs) -> connected w = true -> connected w1 = true.

End Channel.

(** *** One iteration of the tool loop, as a log shows it *)

Section Rounds.

Context {S : Type} (env : Env S).

(** [toolCall.function.arguments || '{}'] *)
Definition argument_text (toolCall : ToolCall) : string :=
  text_or (Some (fn_arguments (tc_function toolCall))) "{}".

(** A completed iteration: the request served, the arguments parsed from
    it, the result the Tool Host gave and the text taken from it. *)
Record Round : Type := mkRound {
  round_call : ToolCall;
  round_arguments : value;
  round_result : CallToolResult;
  round_text : value
}.

Definition round_ok (r : Round) : Prop :=
  JSON_parse env (argument_text (round_call r)) = Ok (round_arguments r)
  /\ result_text env (round_result r) = Ok (round_text r).

Definition event_of (r : Round) : Event :=
  EvCallTool (VStr (fn_name (tc_function (round_call r))))
             (round_arguments r) (Ok (round_result r)).

Definition call_of (r : Round) : value * value * outcome CallToolResult :=
  (VStr (fn_name (tc_function (round_call r))), round_arguments r, Ok (round_result r)).

Definition turn_of (r : Round) : value :=
  tool_turn (round_call r) (round_text r).

Definition record_of (r : Round) : value :=
  tool_record (fn_name (tc_function (round_call r))) (round_arguments r) (round_text r).

(** A call found in a log is the one [toolCall] asked for. *)
Definition requested_as (toolCall : ToolCall)
    (call : value * value * outcome CallToolResult) : Prop :=
  fst (fst call) = VStr (fn_name (tc_function toolCall))
  /\ JSON_parse env (argument_text toolCall) = Ok (snd (fst call)).

(** How the tool loop ended: it went through every request, or a step of
    the iteration for [toolCall] threw [e]: parsing its arguments, the
    Tool Host call, or taking the text of the result. *)
Inductive LoopEnd : Type :=
| AllServed
| ParseThrew (toolCall : ToolCall) (e : exn)
| CallThrew (toolCall : ToolCall) (toolArgs : value) (e : exn)
| TextThrew (toolCall : ToolCall) (toolArgs : value) (toolResult : CallToolResult)
    (e : exn).

(** The request at which the loop stopped, if it did. *)
Definition stopped_at (ending : LoopEnd) : list ToolCall :=
  match ending with
  | AllServed => []
  | ParseThrew toolCall _ | CallThrew toolCall _ _ | TextThrew toolCall _ _ _ =>
      [toolCall]
  end.

(** The error that stopped it. *)
Definition end_error (ending : LoopEnd) : option exn :=
  match ending with
  | AllServed => None
  | ParseThrew _ e | CallThrew _ _ e | TextThrew _ _ _ e => Some e
  end.

(** What the iteration that stopped left in the log. *)
Definition end_events (ending : LoopEnd) : list Event :=
  match ending with
  | AllServed | ParseThrew _ _ => []
  | CallThrew toolCall toolArgs e =>
      [EvCallTool (VStr (fn_name (tc_function toolCall))) toolArgs (Throw e)]
  | TextThrew toolCall toolArgs toolResult _ =>
      [EvCallTool (VStr (fn_name (tc_function toolCall))) toolArgs (Ok toolResult)]
  end.

(** The ending is what the built-ins did: the step named is the one that
    threw, the steps before it in the same iteration completed. *)
Definition end_ok (ending : LoopEnd) : Prop :=
  match ending with
  | AllServed => True
  | ParseThrew toolCall e =>
      JSON_parse env (argument_text toolCall) = Throw e
  | CallThrew toolCall toolArgs _ =>
      JSON_parse env (argument_text toolCall) = Ok toolArgs
  | TextThrew toolCall toolArgs toolResult e =>
      JSON_parse env (argument_text toolCall) = Ok toolArgs
      /\ result_text env toolResult = Throw e
  end.

(** [followUpCompletion.choices[0].message], from the completion of the
    follow-up call. *)
Definition follow_up_message (rf : outcome Completion) : outcome AssistantMessage :=
  obind rf first_message.

End Rounds.

(** *** More readers of an event log *)

Definition connect_of (ev : Event) : option (Transport * outcome unit) :=
  match ev with
  | EvConnect transport r => Some (transport, r)
  | _ => None
  end.

Definition listing_of (ev : Event) : option (outcome value) :=
  match ev with
  | EvListTools r => Some r
  | _ => None
  end.

(** The connection attempts of a log, in the order made. *)
Definition connects_made (evs : list Event) : list (Transport * outcome unit) :=
  pick connect_of evs.

(** The catalog listings of a log, in the order made. *)
Definition listings_made (evs : list Event) : list (outcome value) :=
  pick listing_of evs.

Definition is_console (ev : Event) : bool :=
  match ev with
  | EvConsoleLog _ | EvConsoleError _ _ => true
  | _ => false
  end.

Definition is_connect (ev : Event) : bool :=
  match ev with
  | EvConnect _ _ => true
  | _ => false
  end.

Definition is_listing (ev : Event) : bool :=
  match ev with
  | EvListTools _ => true
  | _ => false
  end.

Definition is_tool_call (ev : Event) : bool :=
  match ev with
  | EvCallTool _ _ _ => true
  | _ => false
  end.

Definition is_llm_call (ev : Event) : bool :=
  match ev with
  | EvCreate _ _ => true
  | _ => false
  end.

(** A computation all of whose events, in every run, satisfy [P]. *)
Definition emits {S A} (P : Event -> bool) (m : M S A) : Prop :=
  forall w r w1 evs, m w = (r, w1, evs) -> forallb P evs = true.

(** The same for the runs that start with the client object in place. *)
Definition emits_connected {S A} (P : Event -> bool) (m : M S A) : Prop :=
  forall w r w1 evs,
    mcpClient w <> None -> m w = (r, w1, evs) -> forallb P evs = true.

(** A computation whose normal completions are 200 answers. *)
Definition answers_200 {S} (m : M S Response) : Prop :=
  forall w resp w1 evs, m w = (Ok resp, w1, evs) -> status resp = 200.

End Bridge.

(* ================================================================== *)
(** ** The catalog translation as the specification words it            *)
(* ================================================================== *)

Module Catalog.

(** A ToolDescriptor of the data model: an object with a string [name],
    a string [description] or none, an object [inputSchema] or none. *)
Definition descriptor_ok (tool : value) : bool :=
  match tool with
  | VObj fields =>
      match lookup "name" fields with
      | Some (VStr _) => true
      | _ => false
      end
      && match lookup "description" fields with
         | None | Some (VStr _) => true
         | _ => false
         end
      && match lookup "inputSchema" fields with
         | None | Some (VObj _) => true
         | _ => false
         end
  | _ => false
  end.

(** The function declaration the specification asks for: the fields
    passed through, a missing description replaced by the empty string, a
    missing schema by the empty object schema. *)
Definition declaration (tool : value) : value :=
  match tool with
  | VObj fields =>
      VObj [("type", VStr "function");
            ("function",
              VObj [("name",
                      match lookup "name" fields with Some n => n | None => VUndef end);
                    ("description",
                      match lookup "description" fields with Some d => d | None => VStr "" end);
                    ("parameters",
                      match lookup "inputSchema" fields with Some s => s | None => VObj [] end)])]
  | _ => VUndef
  end.

End Catalog.

(* ================================================================== *)
(** ** A closed system to run the service in                            *)
(* ================================================================== *)

(** The Bridge Service wired to the Tool Host of index.js, with a scripted
    LLM backend: the setting of the specification's concrete scenarios. *)
Module Scenario.

Import Bridge.

Record Outside : Type := mkOutside {
  host : ToolHost.HostWorld;
  channel_up : bool;
  replies : list (outcome Completion)
}.

Definition quote : string := String (ascii_of_nat 34) EmptyString.

(** The JSON text [{"message":"<s>"}] for a plain word [s]. *)
Definition message_json (s : string) : string :=
  "{" +++ quote +++ "message" +++ quote +++ ":" +++ quote +++ s +++ quote +++ "}".

(** [JSON.parse] on the texts the scripted backend produces. *)
Definition parse (text : string) : outcome value :=
  if String.eqb text "{}" then Ok (VObj [])
  else if String.eqb text (message_json "hi") then Ok (VObj [("message", VStr "hi")])
  else if String.eqb text (message_json "a") then Ok (VObj [("message", VStr "a")])
  else if String.eqb text (message_json "b") then Ok (VObj [("message", VStr "b")])
  else Throw (mkExn "SyntaxError" "Unexpected token in JSON").

Definition connect (_ : Transport) (o : Outside) : outcome unit * Outside :=
  if channel_up o then (Ok tt, o)
  else (Throw (Error "spawn /app/venv/bin/python ENOENT"), o).

Definition listTools (o : Outside) : outcome value * Outside :=
  match ToolHost.ListTools_handler (host o) with
  | (r, h) => (r, mkOutside h (channel_up o) (replies o))
  end.

(** What the protocol client throws when the handler of the Tool Host
    threw: an error of its own whose message is the handler's, prefixed
    with the code of an internal error. *)
Definition relayed (r : outcome CallToolResult) : outcome CallToolResult :=
  match r with
  | Ok result => Ok result
  | Throw e => Throw (mkExn "McpError" ("MCP error -32603: " +++ exn_message e))
  end.

(** The channel delivers a request whose name is a string and whose
    arguments are an object (or absent) to the handler of index.js, and
    relays its result or its error.  Any other request is refused before
    the handler is reached (with a text of the protocol library that is
    not reproduced here). *)
Definition callTool (name arguments : value) (o : Outside) : outcome CallToolResult * Outside :=
  match name, arguments with
  | VStr n, (VObj _ | VUndef) =>
      match ToolHost.CallTool_handler n arguments (host o) with
      | (r, h) => (relayed r, mkOutside h (channel_up o) (replies o))
      end
  | _, _ => (Throw (mkExn "McpError" "MCP error -32603: invalid request"), o)
  end.

Definition create (_ : CompletionRequest) (o : Outside) : outcome Completion * Outside :=
  match replies o with
  | r :: rest => (r, mkOutside (host o) (channel_up o) rest)
  | [] => (Throw (Error "Connection error."), o)
  end.

Definition env (key : option string) : Env Outside :=
  mkEnv Outside "/app" key parse (fun _ => "{}") connect listTools callTool create.

Definition started (up : bool) (script : list (outcome Completion)) : World Outside :=
  mkWorld (Some (mkClient "chatbot-client" "1.0.0"))
          (Some (mkTransport "/app/venv/bin/python" ["/app/server.py"]))
          (mkOutside (ToolHost.mkHostWorld []) up script).

Definition fresh (up : bool) (script : list (outcome Completion)) : World Outside :=
  mkWorld None None (mkOutside (ToolHost.mkHostWorld []) up script).

Definition says (text : string) : outcome Completion :=
  Ok (mkCompletion [mkChoice (mkAssistantMessage (Some text) None)]).

Definition asks (calls : list ToolCall) : outcome Completion :=
  Ok (mkCompletion [mkChoice (mkAssistantMessage None (Some calls))]).

Definition echo_call (id word : string) : ToolCall :=
  mkToolCall id (mkFunctionCall "echo" (message_json word)).

End Scenario.

(* ================================================================== *)
(** ** Properties of the Tool Host                                      *)
(* ================================================================== *)

Module ToolHostSpec.

Import ToolHost.

Lemma lookup_message_singleton (v : value) :
  lookup "message" [("message", v)] = Some v.
Proof. reflexivity. Qed.

(** C1.  For every string [s], the call operation with name "echo" and
    arguments [{ message: s }] succeeds, and its result's content is a
    single text block whose text is "Echo: " followed by [s], unchanged. *)
Theorem echo_returns_prefixed_message (s : string) (w : HostWorld) :
  CallTool_handler "echo" (VObj [("message", VStr s)]) w
  = (Ok (mkCallToolResult
           (Some [VObj [("type", VStr "text"); ("text", VStr ("Echo: " +++ s))]]) []),
     w).
Proof.
  unfold CallTool_handler. cbn [String.eqb Ascii.eqb Bool.eqb].
  unfold get_prop, field. rewrite lookup_message_singleton. reflexivity.
Qed.

(** The concrete scenario of the specification. *)
Example echo_hello_world :
  fst (CallTool_handler "echo" (VObj [("message", VStr "hello world")]) (mkHostWorld []))
  = Ok (mkCallToolResult (Some [text_block "Echo: hello world"]) []).
Proof. reflexivity. Qed.

(** C2, as stated, fails: with an empty argument mapping the echo call
    completes normally. *)
Lemma echo_without_message_does_not_fail :
  ~ (forall (fields : list (string * value)) (w : HostWorld),
       lookup "message" fields = None ->
       exists e, fst (CallTool_handler "echo" (VObj fields) w) = Throw e).
Proof.
  intro H. destruct (H [] (mkHostWorld []) eq_refl) as [e He].
  discriminate He.
Qed.

(** C2, amended.  For every argument mapping without a [message] field,
    the call operation with name "echo" does not fail: it returns a single
    text block with the text "Echo: undefined", and leaves the host's
    world as it was. *)
Theorem echo_without_message_prints_undefined
    (fields : list (string * value)) (w : HostWorld) :
  lookup "message" fields = None ->
  CallTool_handler "echo" (VObj fields) w
  = (Ok (mkCallToolResult
           (Some [VObj [("type", VStr "text"); ("text", VStr "Echo: undefined")]]) []),
     w).
Proof.
  intro Hmissing. unfold CallTool_handler. cbn [String.eqb Ascii.eqb Bool.eqb].
  unfold get_prop, field. rewrite Hmissing. reflexivity.
Qed.

Lemma echo_without_message_prints_undefined_witness :
  lookup "message" [("text", VStr "hi")] = None /\
  CallTool_handler "echo" (VObj [("text", VStr "hi")]) (mkHostWorld [])
  = (Ok (mkCallToolResult
           (Some [VObj [("type", VStr "text"); ("text", VStr "Echo: undefined")]]) []),
     mkHostWorld []).
Proof.
  split.
  - reflexivity.
  - apply (echo_without_message_prints_undefined [("text", VStr "hi")]). reflexivity.
Defined.

(** C3.  For every name other than "echo" and every argument value, the
    call operation throws an error whose message is "Unknown tool: "
    followed by the requested name; it never returns a result. *)
Theorem unknown_tool_is_reported (n : string) (args : value) (w : HostWorld) :
  n <> "echo" ->
  CallTool_handler n args w = (Throw (Error ("Unknown tool: " +++ n)), w).
Proof.
  intro Hn. unfold CallTool_handler.
  destruct (String.eqb n "echo") eqn:E.
  - apply String.eqb_eq in E. contradiction.
  - reflexivity.
Qed.

Lemma unknown_tool_is_reported_witness :
  "nope" <> "echo" /\
  CallTool_handler "nope" (VObj []) (mkHostWorld [])
  = (Throw (Error "Unknown tool: nope"), mkHostWorld []).
Proof.
  split.
  - discriminate.
  - apply (unknown_tool_is_reported "nope"). discriminate.
Defined.

End ToolHostSpec.

(* ================================================================== *)
(** ** Properties of the Bridge Service                                 *)
(* ================================================================== *)

Module BridgeSpec.

Import Bridge.

Section Properties.

Context {S : Type} (env : Env S).

(** *** Health *)

Lemma OPENAI_API_KEY_nonempty : String.eqb (OPENAI_API_KEY env) "" = false.
Proof.
  unfold OPENAI_API_KEY.
  destruct (process_env_OPENAI_API_KEY env) as [key|]; [|reflexivity].
  destruct (String.eqb key "") eqn:E; [reflexivity | exact E].
Qed.

(** C7 (the code departs from it).  Whatever the process environment
    holds, also when the key is absent and the placeholder "None" stands
    in, GET /api/health answers [openaiConfigured: true]. *)
Theorem health_always_reports_openai_configured (w : World S) :
  health_handler env w
  = (Ok (mkResponse 200
           (VObj [("status", VStr "ok");
                  ("connected", VBool (connected w));
                  ("openaiConfigured", VBool true)])),
     w, []).
Proof.
  unfold health_handler, openaiConfigured, res_json, ret.
  rewrite OPENAI_API_KEY_nonempty. reflexivity.
Qed.

(** *** Catalog translation *)

Lemma convert_tool_declaration (tool : value) :
  Catalog.descriptor_ok tool = true ->
  convert_tool tool = Ok (Catalog.declaration tool).
Proof.
  destruct tool as [| | b | r | s | items | fields]; try discriminate.
  unfold Catalog.descriptor_ok, Catalog.declaration, convert_tool, get_prop, field, obind.
  intro H. apply andb_prop in H as [H Hschema]. apply andb_prop in H as [Hname Hdesc].
  destruct (lookup "name" fields) as [[]|]; try discriminate.
  destruct (lookup "description" fields) as [[| | | | d | |]|]; try discriminate;
    destruct (lookup "inputSchema" fields) as [[]|]; try discriminate;
    try reflexivity.
  all: unfold or_else, truthy; destruct (String.eqb d "") eqn:E; try reflexivity.
  all: apply String.eqb_eq in E; subst d; reflexivity.
Qed.

Lemma map_outcome_declarations (tools : list value) :
  forallb Catalog.descriptor_ok tools = true ->
  map_outcome convert_tool tools = Ok (map Catalog.declaration tools).
Proof.
  induction tools as [|tool rest IH]; intro H.
  - reflexivity.
  - cbn [forallb] in H. apply andb_prop in H as [Htool Hrest].
    cbn [map_outcome map]. rewrite (convert_tool_declaration tool Htool).
    cbn [obind]. rewrite (IH Hrest). reflexivity.
Qed.

(** *** Event logs *)

Lemma pick_app {A B} (f : A -> option B) (l1 l2 : list A) :
  pick f (l1 ++ l2) = pick f l1 ++ pick f l2.
Proof.
  induction l1 as [|x l1 IH]; [reflexivity|].
  cbn [app pick]. destruct (f x); rewrite IH; reflexivity.
Qed.

Lemma tool_calls_made_app (l1 l2 : list Event) :
  tool_calls_made (l1 ++ l2) = tool_calls_made l1 ++ tool_calls_made l2.
Proof. apply pick_app. Qed.

Lemma llm_calls_made_app (l1 l2 : list Event) :
  llm_calls_made (l1 ++ l2) = llm_calls_made l1 ++ llm_calls_made l2.
Proof. apply pick_app. Qed.

Lemma quiet_nil : quiet [].
Proof. split; reflexivity. Qed.

Lemma quiet_app (l1 l2 : list Event) : quiet l1 -> quiet l2 -> quiet (l1 ++ l2).
Proof.
  intros [T1 L1] [T2 L2]. split.
  - rewrite tool_calls_made_app, T1, T2. reflexivity.
  - rewrite llm_calls_made_app, L1, L2. reflexivity.
Qed.

(** *** Connecting *)

(** [initMCPClient], run: both variables are assigned before the
    connection is attempted, and stay assigned when it fails. *)
Lemma initMCPClient_run (w : World S) :
  initMCPClient env w =
  match client_connect env (the_transport env) (outside w) with
  | (Ok _, s) =>
      (Ok tt, mkWorld (Some the_client) (Some (the_transport env)) s,
       [EvConnect (the_transport env) (Ok tt); EvConsoleLog "Connected to MCP server"])
  | (Throw e, s) =>
      (Throw e, mkWorld (Some the_client) (Some (the_transport env)) s,
       [EvConnect (the_transport env) (Throw e);
        EvConsoleError "Failed to connect to MCP server:" e])
  end.
Proof.
  unfold initMCPClient, try_catch, bind, set_mcpTransport, set_mcpClient,
    mcpClient_connect, on_client, console_log, console_error, emit, throw.
  cbn [mcpClient mcpTransport outside]. fold (the_transport env).
  destruct (client_connect env (the_transport env) (outside w)) as [[[]|e] s]; reflexivity.
Qed.

Lemma initMCPClient_connected (w w1 : World S) (r : outcome unit) (evs : list Event) :
  initMCPClient env w = (r, w1, evs) -> connected w1 = true /\ quiet evs.
Proof.
  rewrite initMCPClient_run.
  destruct (client_connect env (the_transport env) (outside w)) as [[u|e] s];
    intro H; inversion H; subst; split; try reflexivity; split; reflexivity.
Qed.

Lemma ensure_client_quiet (w w1 : World S) (r : outcome unit) (evs : list Event) :
  ensure_client env w = (r, w1, evs) -> quiet evs.
Proof.
  unfold ensure_client. destruct (mcpClient w).
  - intro H; inversion H; apply quiet_nil.
  - intro H. apply initMCPClient_connected in H. apply H.
Qed.

Lemma ensure_client_ready (w w1 : World S) (evs : list Event) :
  ensure_client env w = (Ok tt, w1, evs) -> connected w1 = true.
Proof.
  unfold ensure_client, connected. destruct (mcpClient w) eqn:E.
  - intro H; inversion H; subst. rewrite E. reflexivity.
  - intro H. apply initMCPClient_connected in H. apply H.
Qed.

Lemma ensure_client_passes (w : World S) :
  channel_ready env w ->
  exists w1 evs, ensure_client env w = (Ok tt, w1, evs)
                 /\ connected w1 = true /\ quiet evs.
Proof.
  intros [Hc | [s Hs]]; unfold ensure_client, connected in *.
  - destruct (mcpClient w) eqn:E; [|discriminate].
    exists w, []. rewrite E. repeat split; reflexivity.
  - destruct (mcpClient w) eqn:E.
    + exists w, []. rewrite E. repeat split; reflexivity.
    + rewrite initMCPClient_run, Hs. eexists _, _. repeat split; reflexivity.
Qed.

(** *** The client object stays *)

Lemma keeps_client_still {A} (m : M S A) :
  (forall w, exists r evs, m w = (r, w, evs)) -> keeps_client m.
Proof.
  intros Hstill w r w1 evs H Hc. destruct (Hstill w) as (r0 & evs0 & H0).
  rewrite H0 in H. inversion H; subst. exact Hc.
Qed.

Lemma keeps_client_ret {A} (a : A) : keeps_client (@ret S A a).
Proof. apply keeps_client_still. intro w. eexists _, _. reflexivity. Qed.

Lemma keeps_client_lift {A} (o : outcome A) : keeps_client (@lift S A o).
Proof. apply keeps_client_still. intro w. eexists _, _. reflexivity. Qed.

Lemma keeps_client_throw {A} (e : exn) : keeps_client (@throw S A e).
Proof. apply keeps_client_still. intro w. eexists _, _. reflexivity. Qed.

Lemma keeps_client_emit (ev : Event) : keeps_client (@emit S ev).
Proof. apply keeps_client_still. intro w. eexists _, _. reflexivity. Qed.

Lemma keeps_client_bind {A B} (m : M S A) (f : A -> M S B) :
  keeps_client m -> (forall a, keeps_client (f a)) -> keeps_client (bind m f).
Proof.
  intros Hm Hf w r w1 evs H Hc. unfold bind in H.
  destruct (m w) as [[ra wa] evsa] eqn:Ha. specialize (Hm _ _ _ _ Ha Hc).
  destruct ra as [a|e].
  - destruct (f a wa) as [[rb wb] evsb] eqn:Hb. inversion H; subst.
    exact (Hf a _ _ _ _ Hb Hm).
  - inversion H; subst. exact Hm.
Qed.

Lemma keeps_client_try_catch {A} (m : M S A) (handler : exn -> M S A) :
  keeps_client m -> (forall e, keeps_client (handler e)) ->
  keeps_client (try_catch m handler).
Proof.
  intros Hm Hh w r w1 evs H Hc. unfold try_catch in H.
  destruct (m w) as [[ra wa] evsa] eqn:Ha. specialize (Hm _ _ _ _ Ha Hc).
  destruct ra as [a|e].
  - inversion H; subst. exact Hm.
  - destruct (handler e wa) as [[rb wb] evsb] eqn:Hb. inversion H; subst.
    exact (Hh e _ _ _ _ Hb Hm).
Qed.

Lemma keeps_client_on_client {A} (method : string)
    (call : S -> outcome A * S) (record : outcome A -> Event) :
  keeps_client (on_client method call record).
Proof.
  intros w r w1 evs H Hc. unfold on_client in H. destruct (mcpClient w) eqn:E.
  - destruct (call (outside w)) as [r0 s]. inversion H; subst. reflexivity.
  - inversion H; subst. exact Hc.
Qed.

Lemma keeps_client_create (request : CompletionRequest) :
  keeps_client (openai_chat_completions_create env request).
Proof.
  intros w r w1 evs H Hc. unfold openai_chat_completions_create in H.
  destruct (completions_create env request (outside w)) as [r0 s].
  inversion H; subst. exact Hc.
Qed.

Lemma keeps_client_ensure : keeps_client (ensure_client env).
Proof.
  intros w r w1 evs H Hc. unfold ensure_client in H. destruct (mcpClient w) eqn:E.
  - inversion H; subst. exact Hc.
  - apply initMCPClient_connected in H. apply H.
Qed.

Lemma keeps_client_run_tool_calls (tool_calls : list ToolCall) :
  forall toolResults toolCalls,
    keeps_client (run_tool_calls env tool_calls toolResults toolCalls).
Proof.
  induction tool_calls as [|toolCall rest IH]; intros toolResults toolCalls.
  - apply keeps_client_ret.
  - cbn [run_tool_calls].
    apply keeps_client_bind; [apply keeps_client_lift | intro toolArgs].
    apply keeps_client_bind; [apply keeps_client_on_client | intro toolResult].
    apply keeps_client_bind; [apply keeps_client_lift | intro resultText].
    apply IH.
Qed.

Lemma keeps_client_chat_answer (msgs : list ChatMessage) (c : Completion) :
  keeps_client (chat_answer env msgs c).
Proof.
  unfold chat_answer.
  apply keeps_client_bind; [apply keeps_client_lift | intro assistantMessage].
  destruct (has_tool_calls assistantMessage); [|apply keeps_client_ret].
  apply keeps_client_bind; [apply keeps_client_run_tool_calls | intros [toolResults toolCalls]].
  apply keeps_client_bind; [apply keeps_client_create | intro followUp].
  apply keeps_client_bind; [apply keeps_client_lift | intro followUpMessage].
  apply keeps_client_ret.
Qed.

Lemma keeps_client_chat_setup (req_body : value) :
  keeps_client (chat_setup env req_body).
Proof.
  unfold chat_setup.
  apply keeps_client_bind; [apply keeps_client_lift | intro message].
  apply keeps_client_bind; [apply keeps_client_lift | intro history].
  apply keeps_client_bind; [apply keeps_client_ensure | intros _].
  apply keeps_client_bind; [apply keeps_client_on_client | intro mcpTools].
  apply keeps_client_bind; [apply keeps_client_lift | intro functions].
  apply keeps_client_bind; [apply keeps_client_lift | intro past].
  apply keeps_client_ret.
Qed.

Lemma keeps_client_catch (text : string) (e : exn) :
  keeps_client
    (console_error text e ;;; res_status_500_json (error_body e) : M S Response).
Proof.
  apply keeps_client_bind; [apply keeps_client_emit | intros _; apply keeps_client_ret].
Qed.

Lemma keeps_client_route (q : Request) : keeps_client (route env q).
Proof.
  destruct q as [|req_body|req_body|]; cbn [route].
  - apply keeps_client_try_catch; [|intro e; apply keeps_client_catch].
    apply keeps_client_bind; [apply keeps_client_ensure | intros _].
    apply keeps_client_bind; [apply keeps_client_on_client | intro tools].
    apply keeps_client_ret.
  - apply keeps_client_try_catch; [|intro e; apply keeps_client_catch].
    apply keeps_client_bind; [apply keeps_client_lift | intro name].
    apply keeps_client_bind; [apply keeps_client_lift | intro args].
    apply keeps_client_bind; [apply keeps_client_ensure | intros _].
    apply keeps_client_bind; [apply keeps_client_on_client | intro result].
    apply keeps_client_ret.
  - apply keeps_client_try_catch; [|intro e; apply keeps_client_catch].
    unfold chat_exchange.
    apply keeps_client_bind; [apply keeps_client_chat_setup | intros [functions msgs]].
    apply keeps_client_bind; [apply keeps_client_create | intro completion].
    apply keeps_client_chat_answer.
  - apply keeps_client_still. intro w. eexists _, _. reflexivity.
Qed.

(** From the [app.listen] callback on, every request finds the client
    object in place, whether or not the connection was made. *)
Lemma serving_connected (w0 w : World S) : serving env w0 w -> connected w = true.
Proof.
  induction 1 as [r w evs Hlisten | q w w' r evs _ IH Hroute].
  - unfold on_listening, bind, console_log, emit in Hlisten.
    destruct (initMCPClient env w0) as [[ri wi] evsi] eqn:Hinit.
    apply initMCPClient_connected in Hinit as [Hc _].
    destruct ri; inversion Hlisten; subst; exact Hc.
  - exact (keeps_client_route q _ _ _ _ Hroute IH).
Qed.

Lemma serving_channel_ready (w0 w : World S) : serving env w0 w -> channel_ready env w.
Proof. intro H. left. exact (serving_connected w0 w H). Qed.

(** *** POST /api/tools/call *)

Lemma connected_client (w : World S) :
  connected w = true -> exists c, mcpClient w = Some c.
Proof.
  unfold connected. destruct (mcpClient w) as [c|]; [|discriminate].
  intros _. exists c. reflexivity.
Qed.

Lemma mcpClient_callTool_run (name arguments : value) (w : World S) (c : Client) :
  mcpClient w = Some c ->
  mcpClient_callTool env name arguments w =
  match client_callTool env name arguments (outside w) with
  | (r, s) => (r, mkWorld (mcpClient w) (mcpTransport w) s, [EvCallTool name arguments r])
  end.
Proof.
  intro Hc. unfold mcpClient_callTool, on_client. rewrite Hc. reflexivity.
Qed.

Lemma tools_call_handler_run (fields : list (string * value)) (w : World S) :
  channel_ready env w ->
  exists w1 pre r s,
    ensure_client env w = (Ok tt, w1, pre) /\ quiet pre /\
    client_callTool env (field "name" fields)
      (or_else (field "arguments" fields) (VObj [])) (outside w1) = (r, s) /\
    tools_call_handler env (VObj fields) w =
    match r with
    | Ok result =>
        (Ok (mkResponse 200 (CallToolResult_value result)),
         mkWorld (mcpClient w1) (mcpTransport w1) s,
         pre ++ [EvCallTool (field "name" fields)
                   (or_else (field "arguments" fields) (VObj [])) r])
    | Throw e =>
        (Ok (mkResponse 500 (error_body e)),
         mkWorld (mcpClient w1) (mcpTransport w1) s,
         pre ++ [EvCallTool (field "name" fields)
                   (or_else (field "arguments" fields) (VObj [])) r;
                 EvConsoleError "Error calling tool:" e])
    end.
Proof.
  intro Hready.
  destruct (ensure_client_passes w Hready) as (w1 & pre & Hens & Hc & Hq).
  destruct (connected_client w1 Hc) as [c Hclient].
  destruct (client_callTool env (field "name" fields)
              (or_else (field "arguments" fields) (VObj [])) (outside w1))
    as [r s] eqn:Hcall.
  exists w1, pre, r, s. repeat split; try assumption; try apply Hq.
  unfold tools_call_handler, try_catch, bind, lift, destructure, get_prop.
  rewrite Hens. rewrite (mcpClient_callTool_run _ _ w1 c Hclient), Hcall.
  destruct r as [result|e]; cbn; rewrite ?app_nil_r; try reflexivity.
  rewrite <- app_assoc. reflexivity.
Qed.

(** *** POST /api/chat: the setup *)

Lemma mcpClient_listTools_quiet (w w1 : World S) (r : outcome value) (evs : list Event) :
  mcpClient_listTools env w = (r, w1, evs) -> quiet evs.
Proof.
  unfold mcpClient_listTools, on_client. destruct (mcpClient w).
  - destruct (client_listTools env (outside w)) as [r0 s].
    intro H; inversion H; split; reflexivity.
  - intro H; inversion H; apply quiet_nil.
Qed.

Lemma chat_setup_quiet (req_body : value) (w w1 : World S)
    (r : outcome (list value * list ChatMessage)) (evs : list Event) :
  chat_setup env req_body w = (r, w1, evs) -> quiet evs.
Proof.
  unfold chat_setup, bind, lift, ret.
  destruct (destructure req_body "message") as [message|e];
    [|intro H; inversion H; apply quiet_nil].
  destruct (destructure req_body "history") as [history|e];
    [|intro H; inversion H; apply quiet_nil].
  destruct (ensure_client env w) as [[r0 w0] evs0] eqn:Hens.
  pose proof (ensure_client_quiet _ _ _ _ Hens) as Hq0.
  destruct r0 as [u|e]; [|intro H; inversion H; subst; cbn; exact Hq0].
  destruct (mcpClient_listTools env w0) as [[r2 w2] evs2] eqn:Hlist.
  pose proof (mcpClient_listTools_quiet _ _ _ _ Hlist) as Hq2.
  destruct r2 as [mcpTools|e].
  - destruct (convertMCPToolsToOpenAI mcpTools) as [functions|e];
      [destruct (spread (default_history history)) as [past|e]|];
      intro H; inversion H; subst; cbn; rewrite ?app_nil_r;
      apply quiet_app; assumption.
  - intro H; inversion H; subst; cbn. apply quiet_app; assumption.
Qed.

(** *** POST /api/chat: the tool loop *)

Lemma mcpClient_callTool_cases (name arguments : value) (w w1 : World S)
    (r : outcome CallToolResult) (evs : list Event) :
  mcpClient_callTool env name arguments w = (r, w1, evs) ->
  (evs = [] /\ exists e, r = Throw e) \/ evs = [EvCallTool name arguments r].
Proof.
  unfold mcpClient_callTool, on_client. destruct (mcpClient w).
  - destruct (client_callTool env name arguments (outside w)) as [r0 s].
    intro H; inversion H; subst. right. reflexivity.
  - intro H; inversion H; subst. left. split; [reflexivity | eexists; reflexivity].
Qed.

(** Whatever becomes of the loop, its log holds Tool Host calls only, and
    they are the first requests of the list, one call each, in order. *)
Lemma run_tool_calls_log (tool_calls : list ToolCall) :
  forall (toolResults toolCalls : list value) (w w1 : World S)
         (r : outcome (list value * list value)) (evs : list Event),
    run_tool_calls env tool_calls toolResults toolCalls w = (r, w1, evs) ->
    llm_calls_made evs = []
    /\ exists k, Forall2 (requested_as env) (firstn k tool_calls) (tool_calls_made evs).
Proof.
  induction tool_calls as [|toolCall rest IH]; intros toolResults toolCalls w w1 r evs H.
  - inversion H; subst. split; [reflexivity|]. exists 0. constructor.
  - cbn [run_tool_calls] in H. unfold bind, lift in H. fold (argument_text toolCall) in H.
    destruct (JSON_parse env (argument_text toolCall)) as [toolArgs|e] eqn:Hparse.
    2:{ inversion H; subst. split; [reflexivity|]. exists 0. constructor. }
    destruct (mcpClient_callTool env (VStr (fn_name (tc_function toolCall))) toolArgs w)
      as [[rc wc] evc] eqn:Hcall.
    assert (Hone : Forall2 (requested_as env) [toolCall]
                     [(VStr (fn_name (tc_function toolCall)), toolArgs, rc)]).
    { constructor; [split; [reflexivity | exact Hparse] | constructor]. }
    destruct (mcpClient_callTool_cases _ _ _ _ _ _ Hcall) as [[Hnil [e He]] | Hev]; subst.
    { inversion H; subst. split; [reflexivity|]. exists 0. constructor. }
    destruct rc as [toolResult|e].
    2:{ inversion H; subst. split; [reflexivity|]. exists 1. exact Hone. }
    destruct (result_text env toolResult) as [resultText|e].
    2:{ inversion H; subst. split; [reflexivity|]. exists 1. exact Hone. }
    destruct (run_tool_calls env rest
                (toolResults ++ [tool_turn toolCall resultText])
                (toolCalls ++ [tool_record (fn_name (tc_function toolCall)) toolArgs resultText])
                wc) as [[r2 w2] evs2] eqn:Hrest.
    inversion H; subst. destruct (IH _ _ _ _ _ _ Hrest) as [Hllm [k Hk]].
    split; [exact Hllm|]. exists (Datatypes.S k). cbn.
    constructor; [split; [reflexivity | exact Hparse] | exact Hk].
Qed.

(** When the loop completes, it went through every request of the list. *)
Lemma run_tool_calls_ok (tool_calls : list ToolCall) :
  forall (toolResults toolCalls toolResults' toolCalls' : list value)
         (w w1 : World S) (evs : list Event),
    run_tool_calls env tool_calls toolResults toolCalls w
    = (Ok (toolResults', toolCalls'), w1, evs) ->
    exists rounds,
      map round_call rounds = tool_calls
      /\ Forall (round_ok env) rounds
      /\ evs = map event_of rounds
      /\ toolResults' = toolResults ++ map turn_of rounds
      /\ toolCalls' = toolCalls ++ map record_of rounds.
Proof.
  induction tool_calls as [|toolCall rest IH];
    intros toolResults toolCalls toolResults' toolCalls' w w1 evs H.
  - inversion H; subst. exists []. cbn. rewrite !app_nil_r.
    repeat split; constructor.
  - cbn [run_tool_calls] in H. unfold bind, lift in H. fold (argument_text toolCall) in H.
    destruct (JSON_parse env (argument_text toolCall)) as [toolArgs|e] eqn:Hparse;
      [|discriminate H].
    destruct (mcpClient_callTool env (VStr (fn_name (tc_function toolCall))) toolArgs w)
      as [[rc wc] evc] eqn:Hcall.
    destruct rc as [toolResult|e]; [|discriminate H].
    destruct (mcpClient_callTool_cases _ _ _ _ _ _ Hcall) as [[_ [e He]] | Hev];
      [discriminate He|subst evc].
    destruct (result_text env toolResult) as [resultText|e] eqn:Htext; [|discriminate H].
    destruct (run_tool_calls env rest
                (toolResults ++ [tool_turn toolCall resultText])
                (toolCalls ++ [tool_record (fn_name (tc_function toolCall)) toolArgs resultText])
                wc) as [[r2 w2] evs2] eqn:Hrest.
    inversion H; subst.
    destruct (IH _ _ _ _ _ _ _ Hrest) as (rounds & Hcalls & Hok & Hevs & Hturns & Hrecords).
    exists (mkRound toolCall toolArgs toolResult resultText :: rounds).
    subst. cbn. rewrite <- !app_assoc. cbn.
    repeat split; try reflexivity.
    constructor; [split; assumption | exact Hok].
Qed.

(** *** POST /api/chat: from the first completion on *)

Lemma has_tool_calls_none (m : AssistantMessage) :
  am_tool_calls m = None \/ am_tool_calls m = Some [] -> has_tool_calls m = false.
Proof. unfold has_tool_calls. intros [H|H]; rewrite H; reflexivity. Qed.

Lemma has_tool_calls_some (m : AssistantMessage) (tool_calls : list ToolCall) :
  am_tool_calls m = Some tool_calls -> tool_calls <> [] -> has_tool_calls m = true.
Proof.
  unfold has_tool_calls. intros H Hne. rewrite H.
  destruct tool_calls; [contradiction | reflexivity].
Qed.

Lemma chat_answer_plain (messages : list ChatMessage) (c : Completion)
    (m : AssistantMessage) (w : World S) :
  first_message c = Ok m ->
  has_tool_calls m = false ->
  chat_answer env messages c w
  = (Ok (mkResponse 200 (chat_body (text_or (am_content m) "") [])), w, []).
Proof.
  intros Hm Hno. unfold chat_answer, bind, lift. rewrite Hm, Hno. reflexivity.
Qed.

Lemma chat_answer_log (messages : list ChatMessage) (c : Completion)
    (m : AssistantMessage) (tool_calls : list ToolCall)
    (w w1 : World S) (r : outcome Response) (evs : list Event) :
  first_message c = Ok m ->
  am_tool_calls m = Some tool_calls ->
  chat_answer env messages c w = (r, w1, evs) ->
  exists k, Forall2 (requested_as env) (firstn k tool_calls) (tool_calls_made evs).
Proof.
  intros Hm Htc H. unfold chat_answer, bind, lift in H. rewrite Hm in H.
  destruct (has_tool_calls m).
  2:{ inversion H; subst. exists 0. constructor. }
  rewrite Htc in H.
  destruct (run_tool_calls env tool_calls [] [] w) as [[rl wl] evl] eqn:Hloop.
  destruct (run_tool_calls_log _ _ _ _ _ _ _ Hloop) as [_ [k Hk]].
  exists k. destruct rl as [[toolResults toolCalls]|e].
  - unfold openai_chat_completions_create in H.
    destruct (completions_create env _ (outside wl)) as [rf s].
    destruct rf as [followUp|e];
      [destruct (first_message followUp)|];
      inversion H; subst; cbn; rewrite tool_calls_made_app; cbn;
      rewrite app_nil_r; exact Hk.
  - inversion H; subst. exact Hk.
Qed.

Lemma chat_answer_ok (messages : list ChatMessage) (c : Completion)
    (m : AssistantMessage) (tool_calls : list ToolCall)
    (w w1 : World S) (resp : Response) (evs : list Event) :
  first_message c = Ok m ->
  am_tool_calls m = Some tool_calls ->
  tool_calls <> [] ->
  chat_answer env messages c w = (Ok resp, w1, evs) ->
  exists rounds c2 m2,
    map round_call rounds = tool_calls
    /\ Forall (round_ok env) rounds
    /\ evs = map event_of rounds
             ++ [EvCreate (mkCompletionRequest "gpt-4o-mini"
                             (messages ++ [Assistant m] ++ map Plain (map turn_of rounds))
                             None None)
                          (Ok c2)]
    /\ first_message c2 = Ok m2
    /\ resp = mkResponse 200
                (chat_body (text_or (am_content m2) (text_or (am_content m) ""))
                           (map record_of rounds)).
Proof.
  intros Hm Htc Hne H. unfold chat_answer, bind, lift in H.
  rewrite Hm, (has_tool_calls_some m tool_calls Htc Hne), Htc in H.
  destruct (run_tool_calls env tool_calls [] [] w) as [[rl wl] evl] eqn:Hloop.
  destruct rl as [[toolResults toolCalls]|e]; [|discriminate H].
  destruct (run_tool_calls_ok _ _ _ _ _ _ _ _ Hloop)
    as (rounds & Hcalls & Hok & Hevs & Hturns & Hrecords).
  cbn [app] in Hturns, Hrecords. subst toolResults toolCalls evl.
  unfold openai_chat_completions_create in H.
  destruct (completions_create env _ (outside wl)) as [rf s].
  destruct rf as [c2|e]; [|discriminate H].
  destruct (first_message c2) as [m2|e] eqn:Hm2; [|discriminate H].
  cbn in H. inversion H; subst.
  exists rounds, c2, m2. rewrite ?app_nil_r. repeat split; try assumption; reflexivity.
Qed.

Lemma chat_handler_run (req_body : value) (w : World S) :
  chat_handler env req_body w =
  match chat_exchange env req_body w with
  | (Ok resp, w1, evs) => (Ok resp, w1, evs)
  | (Throw e, w1, evs) =>
      (Ok (mkResponse 500 (error_body e)), w1,
       evs ++ [EvConsoleError "Error in chat:" e])
  end.
Proof.
  unfold chat_handler, try_catch.
  destruct (chat_exchange env req_body w) as [[[resp|e] w1] evs]; reflexivity.
Qed.

(** The [try] block, seen from its log: when the log's first LLM call
    completed with [c], the block went on with [chat_answer] on [c]. *)
Lemma chat_exchange_first_completion (req_body : value) (w w' : World S)
    (r : outcome Response) (evs : list Event)
    (request : CompletionRequest) (c : Completion) :
  chat_exchange env req_body w = (r, w', evs) ->
  hd_error (llm_calls_made evs) = Some (request, Ok c) ->
  exists pre w2 evs3,
    quiet pre
    /\ chat_answer env (messages request) c w2 = (r, w', evs3)
    /\ evs = pre ++ [EvCreate request (Ok c)] ++ evs3.
Proof.
  intros H Hfirst. unfold chat_exchange, bind in H.
  destruct (chat_setup env req_body w) as [[rs ws] pre] eqn:Hsetup.
  destruct (chat_setup_quiet _ _ _ _ _ Hsetup) as [Hqt Hql].
  destruct rs as [[functions msgs]|e].
  2:{ inversion H; subst. rewrite Hql in Hfirst. discriminate Hfirst. }
  unfold openai_chat_completions_create in H.
  remember (first_request functions msgs) as request0 eqn:Hreq.
  destruct (completions_create env request0 (outside ws)) as [rc s].
  destruct rc as [c0|e].
  2:{ inversion H; subst evs. rewrite llm_calls_made_app, Hql in Hfirst.
      discriminate Hfirst. }
  match type of H with
  | context [chat_answer env msgs c0 ?w2] =>
      destruct (chat_answer env msgs c0 w2) as [[ra w3] evs3] eqn:Hanswer
  end.
  inversion H; subst r w' evs. clear H.
  rewrite llm_calls_made_app, Hql in Hfirst. cbn in Hfirst.
  injection Hfirst as Hr Hc. subst c0.
  assert (Hmsgs : messages request = msgs) by (rewrite <- Hr, Hreq; reflexivity).
  rewrite Hmsgs, <- Hr.
  eexists pre, _, evs3. repeat split; try assumption. exact Hanswer.
Qed.

(** The same for the handler, whose [catch] turns a failure of the block
    into a 500 answer and one more console line. *)
Lemma chat_handler_first_completion (req_body : value) (w w' : World S)
    (r : outcome Response) (evs : list Event)
    (request : CompletionRequest) (c : Completion) :
  chat_handler env req_body w = (r, w', evs) ->
  hd_error (llm_calls_made evs) = Some (request, Ok c) ->
  exists pre w2 ra evs3 post,
    quiet pre
    /\ chat_answer env (messages request) c w2 = (ra, w', evs3)
    /\ evs = pre ++ [EvCreate request (Ok c)] ++ evs3 ++ post
    /\ match ra with
       | Ok resp => r = Ok resp /\ post = []
       | Throw e => r = Ok (mkResponse 500 (error_body e))
                    /\ post = [EvConsoleError "Error in chat:" e]
       end.
Proof.
  intros H Hfirst. rewrite chat_handler_run in H.
  destruct (chat_exchange env req_body w) as [[rx wx] evsx] eqn:Hx.
  destruct rx as [resp|e]; inversion H; subst r w' evs; clear H.
  - destruct (chat_exchange_first_completion _ _ _ _ _ _ _ Hx Hfirst)
      as (pre & w2 & evs3 & Hq & Hanswer & Hevs).
    exists pre, w2, (Ok resp), evs3, []. rewrite app_nil_r.
    split; [exact Hq | split; [exact Hanswer | split; [exact Hevs | split; reflexivity]]].
  - rewrite llm_calls_made_app in Hfirst. cbn in Hfirst. rewrite app_nil_r in Hfirst.
    destruct (chat_exchange_first_completion _ _ _ _ _ _ _ Hx Hfirst)
      as (pre & w2 & evs3 & Hq & Hanswer & Hevs).
    exists pre, w2, (Throw e), evs3, [EvConsoleError "Error in chat:" e].
    split; [exact Hq | split; [exact Hanswer | split; [|split; reflexivity]]].
    rewrite Hevs. rewrite <- !app_assoc. reflexivity.
Qed.

Lemma text_or_empty (s : option string) :
  text_or s "" = match s with Some text => text | None => "" end.
Proof.
  destruct s as [text|]; [|reflexivity]. cbn.
  destruct (String.eqb text "") eqn:E; [|reflexivity].
  apply String.eqb_eq in E. subst. reflexivity.
Qed.

End Properties.

(** C10.  For every POST /api/tools/call request whose body has no
    [arguments] field, or a falsy one, the handler (once past the client
    initialisation) calls the Tool Host's call operation exactly once, with
    the body's [name] and the empty argument mapping; it answers 200 with
    the result the Tool Host gave, or 500 with the error it threw.  No
    check of the body precedes the call. *)
Theorem tools_call_forwards_empty_arguments
    {S : Type} (env : Env S) (fields : list (string * value)) (w : World S) :
  channel_ready env w ->
  truthy (field "arguments" fields) = false ->
  exists r,
    tool_calls_made (snd (tools_call_handler env (VObj fields) w))
    = [(field "name" fields, VObj [], r)]
    /\ fst (fst (tools_call_handler env (VObj fields) w))
       = Ok (match r with
             | Ok result => mkResponse 200 (CallToolResult_value result)
             | Throw e => mkResponse 500 (error_body e)
             end).
Proof.
  intros Hready Hfalsy.
  destruct (tools_call_handler_run env fields w Hready)
    as (w1 & pre & r & s & _ & [Hpre _] & _ & Hrun).
  unfold or_else in Hrun. rewrite Hfalsy in Hrun.
  exists r. rewrite Hrun.
  destruct r as [result|e]; cbn [fst snd]; rewrite tool_calls_made_app, Hpre;
    split; reflexivity.
Qed.

Lemma tools_call_forwards_empty_arguments_witness :
  let env := Scenario.env None in
  let w := Scenario.started true [] in
  channel_ready env w /\
  truthy (field "arguments" [("name", VStr "echo")]) = false /\
  exists r,
    tool_calls_made (snd (tools_call_handler env (VObj [("name", VStr "echo")]) w))
    = [(VStr "echo", VObj [], r)]
    /\ fst (fst (tools_call_handler env (VObj [("name", VStr "echo")]) w))
       = Ok (match r with
             | Ok result => mkResponse 200 (CallToolResult_value result)
             | Throw e => mkResponse 500 (error_body e)
             end).
Proof.
  cbv zeta. split; [|split].
  - left. reflexivity.
  - reflexivity.
  - apply (tools_call_forwards_empty_arguments (Scenario.env None)
             [("name", VStr "echo")] (Scenario.started true [])).
    + left. reflexivity.
    + reflexivity.
Defined.

(** In the closed system, the [app.listen] callback leaves the world the
    scenarios start from. *)
Example on_listening_in_scenario :
  on_listening (Scenario.env None) (Scenario.fresh true [])
  = (Ok tt, Scenario.started true [],
     [EvConsoleLog "Backend server running on http://localhost:3000";
      EvConnect (mkTransport "/app/venv/bin/python" ["/app/server.py"]) (Ok tt);
      EvConsoleLog "Connected to MCP server"]).
Proof. reflexivity. Qed.

(** The echo scenario of the specification, through the tool-call
    endpoint. *)
Example tools_call_hello_world_in_scenario :
  fst (fst (tools_call_handler (Scenario.env None)
              (VObj [("name", VStr "echo");
                     ("arguments", VObj [("message", VStr "hello world")])])
              (Scenario.started true [])))
  = Ok (mkResponse 200 (VObj [("content", VArr [text_block "Echo: hello world"])])).
Proof. reflexivity. Qed.

(** In the closed system the forwarded call reaches index.js, which
    answers with the text "Echo: undefined". *)
Example tools_call_without_arguments_in_scenario :
  fst (fst (tools_call_handler (Scenario.env None) (VObj [("name", VStr "echo")])
              (Scenario.started true [])))
  = Ok (mkResponse 200 (VObj [("content", VArr [text_block "Echo: undefined"])])).
Proof. reflexivity. Qed.

(** C9.  After any run of [initMCPClient], whether it completed or threw
    what the connection attempt threw, GET /api/health answers
    [connected: true]: the flag tells that the client object was
    constructed, not that the channel is up. *)
Theorem health_connected_after_initMCPClient
    {S : Type} (env : Env S) (w w1 : World S) (r : outcome unit) (evs : list Event) :
  initMCPClient env w = (r, w1, evs) ->
  (forall e s, client_connect env (the_transport env) (outside w) = (Throw e, s) ->
               r = Throw e)
  /\ health_handler env w1
     = (Ok (mkResponse 200
              (VObj [("status", VStr "ok");
                     ("connected", VBool true);
                     ("openaiConfigured", VBool (openaiConfigured env))])),
        w1, []).
Proof.
  intro H. split.
  - intros e s Hfail. rewrite initMCPClient_run, Hfail in H. inversion H. reflexivity.
  - apply initMCPClient_connected in H as [Hc _].
    unfold health_handler, res_json, ret. rewrite Hc. reflexivity.
Qed.

Lemma health_connected_after_initMCPClient_witness :
  let env := Scenario.env None in
  let w := Scenario.fresh false [] in
  let w1 := mkWorld (Some (the_client)) (Some (the_transport env)) (outside w) in
  let e := Error "spawn /app/venv/bin/python ENOENT" in
  initMCPClient env w
  = (Throw e, w1,
     [EvConnect (the_transport env) (Throw e);
      EvConsoleError "Failed to connect to MCP server:" e])
  /\ health_handler env w1
     = (Ok (mkResponse 200
              (VObj [("status", VStr "ok");
                     ("connected", VBool true);
                     ("openaiConfigured", VBool (openaiConfigured env))])),
        w1, []).
Proof.
  cbv zeta. split.
  - reflexivity.
  - eapply (health_connected_after_initMCPClient (Scenario.env None)
              (Scenario.fresh false [])).
    reflexivity.
Defined.

(** C8.  The catalog translation maps the catalog element by element, in
    order: every ToolDescriptor becomes the function declaration with its
    name, description and schema unchanged, a missing description
    replaced by the empty string and a missing input schema by the empty
    object.  It reads nothing but its argument. *)
Theorem convertMCPToolsToOpenAI_is_declaration_map
    (tools : list value) (others : list (string * value)) :
  forallb Catalog.descriptor_ok tools = true ->
  convertMCPToolsToOpenAI (VObj (("tools", VArr tools) :: others))
  = Ok (map Catalog.declaration tools).
Proof.
  intro H. unfold convertMCPToolsToOpenAI, get_prop, field.
  cbn [lookup String.eqb Ascii.eqb Bool.eqb obind].
  apply map_outcome_declarations. exact H.
Qed.

Lemma convertMCPToolsToOpenAI_is_declaration_map_witness :
  forallb Catalog.descriptor_ok
    [ToolHost.echo_descriptor; VObj [("name", VStr "ping")]] = true /\
  convertMCPToolsToOpenAI
    (VObj [("tools", VArr [ToolHost.echo_descriptor; VObj [("name", VStr "ping")]])])
  = Ok [Catalog.declaration ToolHost.echo_descriptor;
        VObj [("type", VStr "function");
              ("function", VObj [("name", VStr "ping");
                                 ("description", VStr "");
                                 ("parameters", VObj [])])]].
Proof.
  split.
  - reflexivity.
  - apply (convertMCPToolsToOpenAI_is_declaration_map
             [ToolHost.echo_descriptor; VObj [("name", VStr "ping")]] []).
    reflexivity.
Defined.

(** *** The chat exchange *)

(** C4.  For every chat exchange in which the LLM backend's first response
    holds no tool-invocation request, the chat operation answers 200 with
    that response's text as content (the empty string when the response
    has no text) and an empty toolCalls list; it makes no call to the Tool
    Host's call operation and no further LLM call. *)
Theorem chat_without_tool_request_returns_text
    {S : Type} (env : Env S) (req_body : value) (w w' : World S)
    (r : outcome Response) (evs : list Event)
    (request : CompletionRequest) (c : Completion) (m : AssistantMessage) :
  chat_handler env req_body w = (r, w', evs) ->
  hd_error (llm_calls_made evs) = Some (request, Ok c) ->
  first_message c = Ok m ->
  am_tool_calls m = None \/ am_tool_calls m = Some [] ->
  r = Ok (mkResponse 200
            (VObj [("content",
                     VStr (match am_content m with Some text => text | None => "" end));
                   ("toolCalls", VArr [])]))
  /\ tool_calls_made evs = []
  /\ llm_calls_made evs = [(request, Ok c)].
Proof.
  intros H Hfirst Hm Hnone.
  destruct (chat_handler_first_completion env _ _ _ _ _ _ _ H Hfirst)
    as (pre & w2 & ra & evs3 & post & [Hqt Hql] & Hanswer & Hevs & Hra).
  rewrite (chat_answer_plain env _ _ _ _ Hm (has_tool_calls_none m Hnone)) in Hanswer.
  inversion Hanswer; subst ra w2 evs3. destruct Hra as [Hr Hpost]. subst r post evs.
  rewrite text_or_empty. split; [reflexivity|].
  rewrite tool_calls_made_app, llm_calls_made_app, Hqt, Hql. split; reflexivity.
Qed.

Lemma chat_without_tool_request_returns_text_witness :
  let env := Scenario.env None in
  let w := Scenario.started true [Scenario.says "Hello!"] in
  let run := chat_handler env (VObj [("message", VStr "Hi")]) w in
  fst (fst run)
  = Ok (mkResponse 200 (VObj [("content", VStr "Hello!"); ("toolCalls", VArr [])]))
  /\ tool_calls_made (snd run) = []
  /\ map snd (llm_calls_made (snd run)) = [Scenario.says "Hello!"].
Proof.
  cbv zeta.
  destruct (chat_without_tool_request_returns_text (Scenario.env None)
              (VObj [("message", VStr "Hi")])
              (Scenario.started true [Scenario.says "Hello!"])
              _ _ _ _ _ _ eq_refl eq_refl eq_refl (or_introl eq_refl))
    as (Hr & Htools & Hllm).
  split; [exact Hr | split; [exact Htools | exact (f_equal (map snd) Hllm)]].
Defined.

(** C5, as stated, fails: the backend asks for one invocation of a tool
    the Tool Host does not have; the one Tool Host call throws, no
    follow-up LLM call is made and the exchange answers 500. *)
Lemma chat_single_tool_request_can_fail :
  ~ (forall (req_body : value) (w w' : World Scenario.Outside)
            (r : outcome Response) (evs : list Event)
            (request : CompletionRequest) (c : Completion)
            (m : AssistantMessage) (toolCall : ToolCall),
       chat_handler (Scenario.env None) req_body w = (r, w', evs) ->
       hd_error (llm_calls_made evs) = Some (request, Ok c) ->
       first_message c = Ok m ->
       am_tool_calls m = Some [toolCall] ->
       length (tool_calls_made evs) = 1
       /\ length (llm_calls_made evs) = 2
       /\ exists content record,
            r = Ok (mkResponse 200 (chat_body content [record]))).
Proof.
  intro H.
  destruct (H (VObj [("message", VStr "Use nope")])
              (Scenario.started true
                 [Scenario.asks [mkToolCall "call_1" (mkFunctionCall "nope" "{}")]])
              _ _ _ _ _ _ _ eq_refl eq_refl eq_refl eq_refl)
    as (_ & Hllm & _).
  discriminate Hllm.
Qed.

(** What the failing exchange does. *)
Example chat_unknown_tool_in_scenario :
  let run := chat_handler (Scenario.env None) (VObj [("message", VStr "Use nope")])
               (Scenario.started true
                  [Scenario.asks [mkToolCall "call_1" (mkFunctionCall "nope" "{}")]]) in
  fst (fst run)
  = Ok (mkResponse 500 (VObj [("error", VStr "MCP error -32603: Unknown tool: nope")]))
  /\ tool_calls_made (snd run)
     = [(VStr "nope", VObj [],
         Throw (mkExn "McpError" "MCP error -32603: Unknown tool: nope"))]
  /\ length (llm_calls_made (snd run)) = 1.
Proof. cbv zeta. repeat split; reflexivity. Qed.

(** C5, amended.  For every chat exchange that is answered 200 and in
    which the LLM backend's first response requests exactly one tool
    invocation: the log after the setup is exactly that first LLM call,
    one Tool Host call with the requested name and the arguments parsed
    from the request, and one follow-up LLM call, in this order; the
    follow-up carries the first message list, the assistant's message and
    the one tool-answer turn, and no function declarations; the answer's
    toolCalls list has the single record of the requested name, the parsed
    arguments and the text taken from the Tool Host's result. *)
Theorem chat_single_tool_request_answered
    {S : Type} (env : Env S) (req_body : value) (w w' : World S)
    (resp : Response) (evs : list Event)
    (request : CompletionRequest) (c : Completion)
    (m : AssistantMessage) (toolCall : ToolCall) :
  chat_handler env req_body w = (Ok resp, w', evs) ->
  status resp = 200 ->
  hd_error (llm_calls_made evs) = Some (request, Ok c) ->
  first_message c = Ok m ->
  am_tool_calls m = Some [toolCall] ->
  exists pre toolArgs toolResult resultText followUp c2 m2,
    quiet pre
    /\ evs = pre ++ [EvCreate request (Ok c);
                     EvCallTool (VStr (fn_name (tc_function toolCall))) toolArgs
                                (Ok toolResult);
                     EvCreate followUp (Ok c2)]
    /\ tool_calls_made evs
       = [(VStr (fn_name (tc_function toolCall)), toolArgs, Ok toolResult)]
    /\ llm_calls_made evs = [(request, Ok c); (followUp, Ok c2)]
    /\ JSON_parse env (argument_text toolCall) = Ok toolArgs
    /\ result_text env toolResult = Ok resultText
    /\ followUp = mkCompletionRequest "gpt-4o-mini"
                    (messages request
                     ++ [Assistant m; Plain (tool_turn toolCall resultText)])
                    None None
    /\ first_message c2 = Ok m2
    /\ body resp
       = VObj [("content", VStr (text_or (am_content m2) (text_or (am_content m) "")));
               ("toolCalls",
                 VArr [VObj [("name", VStr (fn_name (tc_function toolCall)));
                             ("arguments", toolArgs);
                             ("result", resultText)]])].
Proof.
  intros H H200 Hfirst Hm Htc.
  destruct (chat_handler_first_completion env _ _ _ _ _ _ _ H Hfirst)
    as (pre & w2 & ra & evs3 & post & Hq & Hanswer & Hevs & Hra).
  destruct ra as [resp'|e].
  2:{ destruct Hra as [Hr _]. injection Hr as Hr. subst resp. discriminate H200. }
  destruct Hra as [Hr Hpost]. injection Hr as Hr. subst resp' post.
  destruct (chat_answer_ok env _ _ _ [toolCall] _ _ _ _ Hm Htc
              ltac:(discriminate) Hanswer)
    as (rounds & c2 & m2 & Hcalls & Hok & Hevs3 & Hm2 & Hresp).
  destruct rounds as [|rd [|rd' rounds]]; try discriminate Hcalls.
  injection Hcalls as Hcall. inversion Hok as [|? ? [Hparse Htext] _]; subst.
  destruct Hq as [Hqt Hql].
  eexists pre, (round_arguments rd), (round_result rd), (round_text rd), _, c2, m2.
  split; [split; assumption|].
  split; [rewrite app_nil_r; reflexivity|].
  rewrite app_nil_r, tool_calls_made_app, llm_calls_made_app, Hqt, Hql.
  repeat split; try assumption; reflexivity.
Qed.

Lemma chat_single_tool_request_answered_witness :
  let env := Scenario.env None in
  let w := Scenario.started true
             [Scenario.asks [Scenario.echo_call "call_1" "hi"];
              Scenario.says "The message was echoed: hi"] in
  let run := chat_handler env (VObj [("message", VStr "Please echo 'hi'")]) w in
  exists toolArgs toolResult,
    tool_calls_made (snd run) = [(VStr "echo", toolArgs, Ok toolResult)]
    /\ JSON_parse env (Scenario.message_json "hi") = Ok toolArgs
    /\ length (llm_calls_made (snd run)) = 2.
Proof.
  cbv zeta.
  destruct (chat_single_tool_request_answered (Scenario.env None)
              (VObj [("message", VStr "Please echo 'hi'")])
              (Scenario.started true
                 [Scenario.asks [Scenario.echo_call "call_1" "hi"];
                  Scenario.says "The message was echoed: hi"])
              _ _ _ _ _ _ _ eq_refl eq_refl eq_refl eq_refl eq_refl)
    as (pre & toolArgs & toolResult & resultText & followUp & c2 & m2
        & _ & _ & Htools & Hllm & Hparse & _).
  exists toolArgs, toolResult.
  split; [exact Htools | split; [exact Hparse | exact (f_equal (@length _) Hllm)]].
Defined.

(** The concrete chat scenario of the specification. *)
Example chat_echo_hi_in_scenario :
  fst (fst (chat_handler (Scenario.env None)
              (VObj [("message", VStr "Please echo 'hi'")])
              (Scenario.started true
                 [Scenario.asks [Scenario.echo_call "call_1" "hi"];
                  Scenario.says "The message was echoed: hi"])))
  = Ok (mkResponse 200
          (VObj [("content", VStr "The message was echoed: hi");
                 ("toolCalls",
                   VArr [VObj [("name", VStr "echo");
                               ("arguments", VObj [("message", VStr "hi")]);
                               ("result", VStr "Echo: hi")]])])).
Proof. reflexivity. Qed.

(** Two requests, served in the listed order. *)
Example chat_two_requests_in_scenario :
  let run := chat_handler (Scenario.env None) (VObj [("message", VStr "Echo a, then b")])
               (Scenario.started true
                  [Scenario.asks [Scenario.echo_call "call_1" "a";
                                  Scenario.echo_call "call_2" "b"];
                   Scenario.says "Both echoed."]) in
  map fst (tool_calls_made (snd run))
  = [(VStr "echo", VObj [("message", VStr "a")]);
     (VStr "echo", VObj [("message", VStr "b")])]
  /\ fst (fst run)
     = Ok (mkResponse 200
             (VObj [("content", VStr "Both echoed.");
                    ("toolCalls",
                      VArr [VObj [("name", VStr "echo");
                                  ("arguments", VObj [("message", VStr "a")]);
                                  ("result", VStr "Echo: a")];
                            VObj [("name", VStr "echo");
                                  ("arguments", VObj [("message", VStr "b")]);
                                  ("result", VStr "Echo: b")]])])).
Proof. cbv zeta. split; reflexivity. Qed.

End BridgeSpec.

(* ================================================================== *)
(** ** Further properties of the Tool Host                              *)
(* ================================================================== *)

Module ToolHostMore.

Import ToolHost.

(** Induction on a value, with the elements of an array as premises. *)
Lemma value_nested_ind (P : value -> Prop) :
  P VUndef -> P VNull -> (forall b, P (VBool b)) -> (forall r, P (VNum r)) ->
  (forall s, P (VStr s)) ->
  (forall items, Forall P items -> P (VArr items)) ->
  (forall fields, P (VObj fields)) ->
  forall v, P v.
Proof.
  intros Hu Hn Hb Hr Hs Ha Ho. fix IH 1.
  intros [ | | b | r | s | items | fields].
  - exact Hu.
  - exact Hn.
  - apply Hb.
  - apply Hr.
  - apply Hs.
  - apply Ha.
    exact ((fix elements (l : list value) : Forall P l :=
              match l with
              | [] => Forall_nil P
              | x :: rest => Forall_cons x (IH x) (elements rest)
              end) items).
  - apply Ho.
Qed.

Lemma to_string_array_step (x y : value) (rest : list value) :
  to_string (VArr (x :: y :: rest))
  = obind (match x with VUndef | VNull => Ok "" | _ => to_string x end) (fun sx =>
    obind (to_string (VArr (y :: rest))) (fun sr => Ok (sx +++ "," +++ sr))).
Proof. reflexivity. Qed.

(** The only error a string conversion raises. *)
Lemma to_string_error (v : value) :
  forall e, to_string v = Throw e ->
            e = TypeError "Cannot convert object to primitive value".
Proof.
  induction v as [ | | b | r | s | items Hitems | fields] using value_nested_ind;
    intro e; try (cbn; discriminate).
  - destruct b; cbn; discriminate.
  - induction Hitems as [|x rest Hx Hrest IHrest]; [cbn; discriminate|].
    destruct rest as [|y rest'].
    + destruct x; cbn; try discriminate; intro H; apply Hx; exact H.
    + rewrite to_string_array_step.
      assert (Hel : forall e', match x with VUndef | VNull => Ok "" | _ => to_string x end
                               = Throw e' ->
                               e' = TypeError "Cannot convert object to primitive value").
      { intros e' H. destruct x; try discriminate H; apply Hx; exact H. }
      destruct (match x with VUndef | VNull => Ok "" | _ => to_string x end) as [sx|ex].
      * cbn [obind]. destruct (to_string (VArr (y :: rest'))) as [sr|er].
        -- cbn [obind]. discriminate.
        -- cbn [obind]. intro H. injection H as H. subst er. apply IHrest. reflexivity.
      * cbn [obind]. intro H. injection H as H. subst ex. apply Hel. reflexivity.
  - cbn. destruct (lookup "toString" fields); [|discriminate].
    intro H. injection H as H. symmetry. exact H.
Qed.

Lemma get_prop_present (v : value) (k : string) :
  present v = true -> exists x, get_prop v k = Ok x.
Proof.
  destruct v as [ | | b | r | s | items | fields]; try discriminate; intros _;
    unfold get_prop.
  - eexists; reflexivity.
  - eexists; reflexivity.
  - destruct (String.eqb k "length"); [eexists; reflexivity|].
    destruct (index_of_key k); eexists; reflexivity.
  - destruct (String.eqb k "length"); [eexists; reflexivity|].
    destruct (index_of_key k); eexists; reflexivity.
  - eexists; reflexivity.
Qed.

Lemma get_prop_absent (v : value) (k : string) :
  present v = false -> exists msg, get_prop v k = Throw (TypeError msg).
Proof.
  destruct v; try discriminate; intros _; eexists; reflexivity.
Qed.

(** The catalog and the call handler agree: a name is advertised by the
    list operation exactly when the call operation does not answer it
    with the unknown-tool error. *)
Theorem advertised_names_are_the_known_tools (n : string) (args : value) (w : HostWorld) :
  In (VStr n) (advertised_names (fst (ListTools_handler w)))
  <-> fst (CallTool_handler n args w) <> Throw (Error ("Unknown tool: " +++ n)).
Proof.
  cbn [ListTools_handler fst advertised_names]. unfold CallTool_handler.
  destruct (String.eqb n "echo") eqn:E.
  - apply String.eqb_eq in E. subst n. split; [intros _ | intros _; left; reflexivity].
    cbn [fst]. destruct (get_prop args "message") as [message|e] eqn:Hget; cbn [obind].
    + destruct (to_string message) as [shown|e] eqn:Hshow; cbn [obind]; [discriminate|].
      rewrite (to_string_error _ _ Hshow). discriminate.
    + destruct args; cbn in Hget; try discriminate Hget;
        injection Hget as Hget; subst e; discriminate.
  - apply String.eqb_neq in E. split.
    + intros [H | []]. injection H as H. symmetry in H. contradiction.
    + intro H. exfalso. apply H. reflexivity.
Qed.

(** When the request carries no argument object at all ([undefined] or
    [null]), the echo call throws a TypeError: it neither answers nor
    reports invalid arguments. *)
Theorem echo_without_arguments_throws (args : value) (w : HostWorld) :
  present args = false ->
  exists msg, CallTool_handler "echo" args w = (Throw (TypeError msg), w).
Proof.
  intro H. destruct (get_prop_absent args "message" H) as [msg Hmsg].
  exists msg. unfold CallTool_handler. cbn [String.eqb Ascii.eqb Bool.eqb].
  rewrite Hmsg. reflexivity.
Qed.

Lemma echo_without_arguments_throws_witness :
  present VUndef = false /\
  exists msg, CallTool_handler "echo" VUndef (mkHostWorld []) = (Throw (TypeError msg), mkHostWorld []).
Proof.
  split.
  - reflexivity.
  - apply (echo_without_arguments_throws VUndef). reflexivity.
Defined.

End ToolHostMore.

(* ================================================================== *)
(** ** Further properties of the Bridge Service                         *)
(* ================================================================== *)

Module BridgeMore.

Import Bridge BridgeSpec.

Section Logs.

Context {S : Type} (env : Env S).

(** *** What a computation emits *)

Lemma pick_none {B} (f : Event -> option B) (P : Event -> bool) (evs : list Event) :
  (forall ev, P ev = true -> f ev = None) -> forallb P evs = true -> pick f evs = [].
Proof.
  intro HP. induction evs as [|ev evs IH]; [reflexivity|].
  cbn [forallb pick]. intro H. apply andb_prop in H as [Hev Hevs].
  rewrite (HP ev Hev). exact (IH Hevs).
Qed.

Lemma emits_still {A} (P : Event -> bool) (m : M S A) :
  (forall w, exists r w1, m w = (r, w1, [])) -> emits P m.
Proof.
  intros Hm w r w1 evs H. destruct (Hm w) as (r0 & w0 & H0).
  rewrite H0 in H. inversion H. reflexivity.
Qed.

Lemma emits_ret {A} (P : Event -> bool) (a : A) : emits P (@ret S A a).
Proof. apply emits_still. intro w. eexists _, _. reflexivity. Qed.

Lemma emits_lift {A} (P : Event -> bool) (o : outcome A) : emits P (@lift S A o).
Proof. apply emits_still. intro w. eexists _, _. reflexivity. Qed.

Lemma emits_throw {A} (P : Event -> bool) (e : exn) : emits P (@throw S A e).
Proof. apply emits_still. intro w. eexists _, _. reflexivity. Qed.

Lemma emits_emit (P : Event -> bool) (ev : Event) :
  P ev = true -> emits P (@emit S ev).
Proof.
  intros HP w r w1 evs H. inversion H; subst. cbn. rewrite HP. reflexivity.
Qed.

Lemma emits_bind {A B} (P : Event -> bool) (m : M S A) (f : A -> M S B) :
  emits P m -> (forall a, emits P (f a)) -> emits P (bind m f).
Proof.
  intros Hm Hf w r w1 evs H. unfold bind in H.
  destruct (m w) as [[ra wa] evsa] eqn:Ha. specialize (Hm _ _ _ _ Ha).
  destruct ra as [a|e].
  - destruct (f a wa) as [[rb wb] evsb] eqn:Hb. inversion H; subst.
    rewrite forallb_app, Hm, (Hf a _ _ _ _ Hb). reflexivity.
  - inversion H; subst. exact Hm.
Qed.

Lemma emits_try_catch {A} (P : Event -> bool) (m : M S A) (handler : exn -> M S A) :
  emits P m -> (forall e, emits P (handler e)) -> emits P (try_catch m handler).
Proof.
  intros Hm Hh w r w1 evs H. unfold try_catch in H.
  destruct (m w) as [[ra wa] evsa] eqn:Ha. specialize (Hm _ _ _ _ Ha).
  destruct ra as [a|e].
  - inversion H; subst. exact Hm.
  - destruct (handler e wa) as [[rb wb] evsb] eqn:Hb. inversion H; subst.
    rewrite forallb_app, Hm, (Hh e _ _ _ _ Hb). reflexivity.
Qed.

Lemma emits_on_client {A} (P : Event -> bool) (method : string)
    (call : S -> outcome A * S) (record : outcome A -> Event) :
  (forall r, P (record r) = true) -> emits P (on_client method call record).
Proof.
  intros HP w r w1 evs H. unfold on_client in H. destruct (mcpClient w).
  - destruct (call (outside w)) as [r0 s]. inversion H; subst.
    cbn. rewrite HP. reflexivity.
  - inversion H; subst. reflexivity.
Qed.

Lemma emits_create (P : Event -> bool) (request : CompletionRequest) :
  (forall r, P (EvCreate request r) = true) ->
  emits P (openai_chat_completions_create env request).
Proof.
  intros HP w r w1 evs H. unfold openai_chat_completions_create in H.
  destruct (completions_create env request (outside w)) as [r0 s].
  inversion H; subst. cbn. rewrite HP. reflexivity.
Qed.

Lemma emits_catch (P : Event -> bool) (text : string) (e : exn) :
  (forall ev, is_console ev = true -> P ev = true) ->
  emits P (console_error text e ;;; res_status_500_json (error_body e) : M S Response).
Proof.
  intro HP. apply emits_bind; [|intros _; apply emits_ret].
  apply emits_emit. apply HP. reflexivity.
Qed.

Lemma emits_run_tool_calls (P : Event -> bool) (tool_calls : list ToolCall) :
  (forall ev, is_tool_call ev = true -> P ev = true) ->
  forall toolResults toolCalls,
    emits P (run_tool_calls env tool_calls toolResults toolCalls).
Proof.
  intro HP. induction tool_calls as [|toolCall rest IH]; intros toolResults toolCalls.
  - apply emits_ret.
  - cbn [run_tool_calls].
    apply emits_bind; [apply emits_lift | intro toolArgs].
    apply emits_bind; [|intro toolResult].
    { apply emits_on_client. intro r. apply HP. reflexivity. }
    apply emits_bind; [apply emits_lift | intro resultText].
    apply IH.
Qed.

Lemma emits_chat_answer (P : Event -> bool) (msgs : list ChatMessage) (c : Completion) :
  (forall ev, is_tool_call ev = true -> P ev = true) ->
  (forall ev, is_llm_call ev = true -> P ev = true) ->
  emits P (chat_answer env msgs c).
Proof.
  intros Htool Hllm. unfold chat_answer.
  apply emits_bind; [apply emits_lift | intro assistantMessage].
  destruct (has_tool_calls assistantMessage); [|apply emits_ret].
  apply emits_bind; [apply emits_run_tool_calls; exact Htool | intros [toolResults toolCalls]].
  apply emits_bind; [|intro followUp].
  { apply emits_create. intro r. apply Hllm. reflexivity. }
  apply emits_bind; [apply emits_lift | intro followUpMessage].
  apply emits_ret.
Qed.

Lemma emits_initMCPClient (P : Event -> bool) :
  (forall ev, is_connect ev = true -> P ev = true) ->
  (forall ev, is_console ev = true -> P ev = true) ->
  emits P (initMCPClient env).
Proof.
  intros Hconnect Hconsole w r w1 evs H. rewrite initMCPClient_run in H.
  destruct (client_connect env (the_transport env) (outside w)) as [[u|e] s];
    inversion H; subst; cbn;
    rewrite Hconnect, Hconsole; reflexivity.
Qed.

Lemma emits_ensure_client (P : Event -> bool) :
  (forall ev, is_connect ev = true -> P ev = true) ->
  (forall ev, is_console ev = true -> P ev = true) ->
  emits P (ensure_client env).
Proof.
  intros Hconnect Hconsole w r w1 evs H. unfold ensure_client in H.
  destruct (mcpClient w).
  - inversion H; subst. reflexivity.
  - exact (emits_initMCPClient P Hconnect Hconsole _ _ _ _ H).
Qed.

(** *** With the client object in place *)

Lemma connected_iff (w : World S) : connected w = true <-> mcpClient w <> None.
Proof.
  unfold connected. destruct (mcpClient w); split; intro H;
    try reflexivity; try discriminate; congruence.
Qed.

Lemma emits_connected_of_emits {A} (P : Event -> bool) (m : M S A) :
  emits P m -> emits_connected P m.
Proof. intros Hm w r w1 evs _ H. exact (Hm _ _ _ _ H). Qed.

Lemma emits_connected_bind {A B} (P : Event -> bool) (m : M S A) (f : A -> M S B) :
  keeps_client m -> emits_connected P m -> (forall a, emits_connected P (f a)) ->
  emits_connected P (bind m f).
Proof.
  intros Hkeep Hm Hf w r w1 evs Hc H. unfold bind in H.
  destruct (m w) as [[ra wa] evsa] eqn:Ha.
  pose proof (Hm _ _ _ _ Hc Ha) as Hevs.
  apply connected_iff in Hc. pose proof (Hkeep _ _ _ _ Ha Hc) as Hca.
  apply connected_iff in Hca.
  destruct ra as [a|e].
  - destruct (f a wa) as [[rb wb] evsb] eqn:Hb. inversion H; subst.
    rewrite forallb_app, Hevs, (Hf a _ _ _ _ Hca Hb). reflexivity.
  - inversion H; subst. exact Hevs.
Qed.

Lemma emits_connected_try_catch {A} (P : Event -> bool)
    (m : M S A) (handler : exn -> M S A) :
  emits_connected P m -> (forall e, emits P (handler e)) ->
  emits_connected P (try_catch m handler).
Proof.
  intros Hm Hh w r w1 evs Hc H. unfold try_catch in H.
  destruct (m w) as [[ra wa] evsa] eqn:Ha.
  pose proof (Hm _ _ _ _ Hc Ha) as Hevs.
  destruct ra as [a|e].
  - inversion H; subst. exact Hevs.
  - destruct (handler e wa) as [[rb wb] evsb] eqn:Hb. inversion H; subst.
    rewrite forallb_app, Hevs, (Hh e _ _ _ _ Hb). reflexivity.
Qed.

Lemma emits_connected_ensure (P : Event -> bool) :
  emits_connected P (ensure_client env).
Proof.
  intros w r w1 evs Hc H. unfold ensure_client in H.
  destruct (mcpClient w); [|contradiction].
  inversion H; subst. reflexivity.
Qed.

(** *** No second connection attempt *)

Lemma route_emits_no_connect (q : Request) :
  emits_connected (fun ev => negb (is_connect ev)) (route env q).
Proof.
  assert (Hconsole : forall ev, is_console ev = true -> negb (is_connect ev) = true)
    by (intros []; cbn; congruence).
  assert (Htool : forall ev, is_tool_call ev = true -> negb (is_connect ev) = true)
    by (intros []; cbn; congruence).
  assert (Hllm : forall ev, is_llm_call ev = true -> negb (is_connect ev) = true)
    by (intros []; cbn; congruence).
  destruct q as [|req_body|req_body|]; cbn [route].
  - apply emits_connected_try_catch; [|intro e; apply emits_catch; exact Hconsole].
    apply emits_connected_bind;
      [apply keeps_client_ensure | apply emits_connected_ensure | intros _].
    apply emits_connected_of_emits.
    apply emits_bind; [apply emits_on_client; reflexivity | intro; apply emits_ret].
  - apply emits_connected_try_catch; [|intro e; apply emits_catch; exact Hconsole].
    apply emits_connected_bind;
      [apply keeps_client_lift | apply emits_connected_of_emits, emits_lift | intro name].
    apply emits_connected_bind;
      [apply keeps_client_lift | apply emits_connected_of_emits, emits_lift | intro args].
    apply emits_connected_bind;
      [apply keeps_client_ensure | apply emits_connected_ensure | intros _].
    apply emits_connected_of_emits.
    apply emits_bind; [apply emits_on_client; reflexivity | intro; apply emits_ret].
  - apply emits_connected_try_catch; [|intro e; apply emits_catch; exact Hconsole].
    unfold chat_exchange.
    apply emits_connected_bind; [apply keeps_client_chat_setup | | intros [functions msgs]].
    + unfold chat_setup.
      apply emits_connected_bind;
        [apply keeps_client_lift | apply emits_connected_of_emits, emits_lift | intro message].
      apply emits_connected_bind;
        [apply keeps_client_lift | apply emits_connected_of_emits, emits_lift | intro history].
      apply emits_connected_bind;
        [apply keeps_client_ensure | apply emits_connected_ensure | intros _].
      apply emits_connected_of_emits.
      apply emits_bind; [apply emits_on_client; reflexivity | intro mcpTools].
      apply emits_bind; [apply emits_lift | intro functions].
      apply emits_bind; [apply emits_lift | intro past].
      apply emits_ret.
    + apply emits_connected_of_emits.
      apply emits_bind; [apply emits_create; reflexivity | intro completion].
      apply emits_chat_answer; assumption.
  - apply emits_connected_of_emits, emits_still. intro w. eexists _, _. reflexivity.
Qed.

(** *** Every route answers *)

Lemma answers_200_bind {A} (m : M S A) (f : A -> M S Response) :
  (forall a, answers_200 (f a)) -> answers_200 (bind m f).
Proof.
  intros Hf w resp w1 evs H. unfold bind in H.
  destruct (m w) as [[[a|e] wa] evsa]; [|discriminate H].
  destruct (f a wa) as [[rb wb] evsb] eqn:Hb. inversion H; subst.
  exact (Hf a _ _ _ _ Hb).
Qed.

Lemma answers_200_res_json (v : value) : answers_200 (@res_json S v).
Proof. intros w resp w1 evs H. inversion H. reflexivity. Qed.

Lemma answers_200_chat_exchange (req_body : value) :
  answers_200 (chat_exchange env req_body).
Proof.
  unfold chat_exchange.
  apply answers_200_bind. intros [functions msgs].
  apply answers_200_bind. intro completion. unfold chat_answer.
  apply answers_200_bind. intro assistantMessage.
  destruct (has_tool_calls assistantMessage); [|apply answers_200_res_json].
  apply answers_200_bind. intros [toolResults toolCalls].
  apply answers_200_bind. intro followUp.
  apply answers_200_bind. intro followUpMessage.
  apply answers_200_res_json.
Qed.

Lemma try_catch_answers (m : M S Response) (label : string) (w : World S) :
  answers_200 m ->
  exists resp,
    fst (fst (try_catch m (fun error =>
                 console_error label error ;;; res_status_500_json (error_body error)) w))
    = Ok resp
    /\ (status resp = 200
        \/ exists e before,
             resp = mkResponse 500 (error_body e)
             /\ snd (try_catch m (fun error =>
                        console_error label error ;;;
                        res_status_500_json (error_body error)) w)
                = before ++ [EvConsoleError label e]).
Proof.
  intro Hm. unfold try_catch.
  destruct (m w) as [[[resp|e] w1] evs] eqn:Hrun.
  - exists resp. split; [reflexivity|]. left. exact (Hm _ _ _ _ Hrun).
  - eexists. split; [reflexivity|]. right. exists e, evs. split; reflexivity.
Qed.

(** *** GET /api/tools *)

Lemma mcpClient_listTools_run (w : World S) (c : Client) :
  mcpClient w = Some c ->
  mcpClient_listTools env w =
  match client_listTools env (outside w) with
  | (r, s) => (r, mkWorld (mcpClient w) (mcpTransport w) s, [EvListTools r])
  end.
Proof.
  intro Hc. unfold mcpClient_listTools, on_client. rewrite Hc. reflexivity.
Qed.

Lemma tools_handler_run (w : World S) :
  channel_ready env w ->
  exists w1 pre r s,
    ensure_client env w = (Ok tt, w1, pre)
    /\ client_listTools env (outside w1) = (r, s)
    /\ tools_handler env w =
       match r with
       | Ok tools =>
           (Ok (mkResponse 200 tools),
            mkWorld (mcpClient w1) (mcpTransport w1) s,
            pre ++ [EvListTools r])
       | Throw e =>
           (Ok (mkResponse 500 (error_body e)),
            mkWorld (mcpClient w1) (mcpTransport w1) s,
            pre ++ [EvListTools r; EvConsoleError "Error listing tools:" e])
       end.
Proof.
  intro Hready.
  destruct (ensure_client_passes env w Hready) as (w1 & pre & Hens & Hc & Hq).
  destruct (connected_client w1 Hc) as [c Hclient].
  destruct (client_listTools env (outside w1)) as [r s] eqn:Hlist.
  exists w1, pre, r, s. split; [exact Hens|]. split; [exact Hlist|].
  unfold tools_handler, try_catch, bind.
  rewrite Hens, (mcpClient_listTools_run w1 c Hclient), Hlist.
  destruct r as [tools|e]; cbn; rewrite ?app_nil_r; try reflexivity.
  rewrite <- app_assoc. reflexivity.
Qed.

Lemma ensure_client_lists_nothing (w w1 : World S) (r : outcome unit) (evs : list Event) :
  ensure_client env w = (r, w1, evs) -> listings_made evs = [].
Proof.
  intro H. apply (pick_none listing_of (fun ev => is_connect ev || is_console ev)).
  - intros [] Hev; try reflexivity; discriminate Hev.
  - apply (emits_ensure_client (fun ev => is_connect ev || is_console ev)) in H.
    + exact H.
    + intros ev Hev. rewrite Hev. reflexivity.
    + intros ev Hev. rewrite Hev. apply orb_true_r.
Qed.

(** *** The first request of a chat exchange *)

Lemma bind_lift_run {A B} (o : outcome A) (f : A -> M S B) (w : World S) :
  bind (lift o) f w =
  match o with
  | Ok a => f a w
  | Throw e => (Throw e, w, [])
  end.
Proof.
  unfold bind, lift. destruct o as [a|e]; [|reflexivity].
  destruct (f a w) as [[r w1] evs]. reflexivity.
Qed.

(** What a completed setup has done: one catalog listing, converted; the
    history spread between the system turn and the user turn. *)
Lemma chat_setup_ok (fields : list (string * value)) (w ws : World S)
    (functions : list value) (msgs : list ChatMessage) (pre : list Event) :
  chat_setup env (VObj fields) w = (Ok (functions, msgs), ws, pre) ->
  exists mcpTools past,
    listings_made pre = [Ok mcpTools]
    /\ convertMCPToolsToOpenAI mcpTools = Ok functions
    /\ spread (default_history (field "history" fields)) = Ok past
    /\ msgs = [system_turn] ++ map Plain past ++ [user_turn (field "message" fields)].
Proof.
  intro H. unfold chat_setup, bind, lift, ret in H.
  cbn [destructure get_prop] in H. cbv beta iota in H.
  destruct (ensure_client env w) as [[r0 w0] evs0] eqn:Hens.
  pose proof (ensure_client_lists_nothing _ _ _ _ Hens) as Hnone.
  destruct r0 as [u|e]; [|discriminate H].
  unfold mcpClient_listTools, on_client in H.
  destruct (mcpClient w0); [|discriminate H].
  destruct (client_listTools env (outside w0)) as [rl s].
  destruct rl as [mcpTools|e]; [|discriminate H].
  destruct (convertMCPToolsToOpenAI mcpTools) as [fs|e] eqn:Hconv; [|discriminate H].
  destruct (spread (default_history (field "history" fields))) as [past|e] eqn:Hspread;
    [|discriminate H].
  inversion H; subst. exists mcpTools, past.
  unfold listings_made in *. rewrite pick_app, Hnone.
  split; [reflexivity|]. split; [exact Hconv|]. split; reflexivity.
Qed.

(** The ways the [try] block of the chat handler can go. *)
Lemma chat_exchange_cases (req_body : value) (w w' : World S)
    (r : outcome Response) (evs : list Event) :
  chat_exchange env req_body w = (r, w', evs) ->
  (exists e, r = Throw e /\ chat_setup env req_body w = (Throw e, w', evs))
  \/ exists functions msgs ws pre rc s,
       chat_setup env req_body w = (Ok (functions, msgs), ws, pre)
       /\ completions_create env (first_request functions msgs) (outside ws) = (rc, s)
       /\ match rc with
          | Throw e =>
              r = Throw e /\ evs = pre ++ [EvCreate (first_request functions msgs) rc]
          | Ok c =>
              exists evs3,
                chat_answer env msgs c (mkWorld (mcpClient ws) (mcpTransport ws) s)
                = (r, w', evs3)
                /\ evs = pre ++ [EvCreate (first_request functions msgs) rc] ++ evs3
          end.
Proof.
  intro H. unfold chat_exchange, bind in H.
  destruct (chat_setup env req_body w) as [[rs ws] pre] eqn:Hsetup.
  destruct rs as [[functions msgs]|e].
  2:{ inversion H; subst. left. exists e. split; reflexivity. }
  right. unfold openai_chat_completions_create in H.
  destruct (completions_create env (first_request functions msgs) (outside ws))
    as [rc s] eqn:Hcreate.
  exists functions, msgs, ws, pre, rc, s.
  split; [first [reflexivity | exact Hsetup]|].
  split; [first [reflexivity | exact Hcreate]|].
  destruct rc as [c|e].
  - destruct (chat_answer env msgs c (mkWorld (mcpClient ws) (mcpTransport ws) s))
      as [[ra w3] evs3] eqn:Hanswer.
    inversion H; subst. exists evs3. split; reflexivity.
  - inversion H; subst. split; reflexivity.
Qed.

Lemma chat_answer_quiet_listing (msgs : list ChatMessage) (c : Completion)
    (w w1 : World S) (r : outcome Response) (evs : list Event) :
  chat_answer env msgs c w = (r, w1, evs) -> listings_made evs = [].
Proof.
  intro H. apply (pick_none listing_of (fun ev => is_tool_call ev || is_llm_call ev)).
  - intros [] Hev; try reflexivity; discriminate Hev.
  - apply (emits_chat_answer (fun ev => is_tool_call ev || is_llm_call ev)) in H.
    + exact H.
    + intros ev Hev. rewrite Hev. reflexivity.
    + intros ev Hev. rewrite Hev. apply orb_true_r.
Qed.

(** The first LLM call found in the log of a chat request, traced back to
    the setup that produced its argument. *)
Lemma chat_first_request (fields : list (string * value)) (w w' : World S)
    (r : outcome Response) (evs : list Event)
    (request : CompletionRequest) (rc : outcome Completion) :
  chat_handler env (VObj fields) w = (r, w', evs) ->
  hd_error (llm_calls_made evs) = Some (request, rc) ->
  exists mcpTools functions past,
    listings_made evs = [Ok mcpTools]
    /\ convertMCPToolsToOpenAI mcpTools = Ok functions
    /\ spread (default_history (field "history" fields)) = Ok past
    /\ request = first_request functions
                   ([system_turn] ++ map Plain past
                    ++ [user_turn (field "message" fields)]).
Proof.
  intros H Hfirst. rewrite chat_handler_run in H.
  destruct (chat_exchange env (VObj fields) w) as [[rx wx] evsx] eqn:Hx.
  assert (Hevs : exists post, evs = evsx ++ post /\ forallb is_console post = true).
  { destruct rx; inversion H; subst.
    - exists []. rewrite app_nil_r. split; reflexivity.
    - eexists. split; reflexivity. }
  destruct Hevs as (post & Hevs & Hpost). subst evs. clear H.
  assert (Hpost_llm : llm_calls_made post = []).
  { apply (pick_none llm_call_of is_console); [|exact Hpost].
    intros [] Hev; try reflexivity; discriminate Hev. }
  assert (Hpost_list : listings_made post = []).
  { apply (pick_none listing_of is_console); [|exact Hpost].
    intros [] Hev; try reflexivity; discriminate Hev. }
  rewrite llm_calls_made_app, Hpost_llm, app_nil_r in Hfirst.
  unfold listings_made in *. rewrite pick_app, Hpost_list, app_nil_r.
  destruct (chat_exchange_cases _ _ _ _ _ Hx)
    as [(e & _ & Hsetup) | (functions & msgs & ws & pre & rc0 & s & Hsetup & _ & Hrc)].
  - destruct (chat_setup_quiet env _ _ _ _ _ Hsetup) as [_ Hql].
    rewrite Hql in Hfirst. discriminate Hfirst.
  - destruct (chat_setup_quiet env _ _ _ _ _ Hsetup) as [_ Hql].
    destruct (chat_setup_ok _ _ _ _ _ _ Hsetup)
      as (mcpTools & past & Hlist & Hconv & Hspread & Hmsgs).
    exists mcpTools, functions, past.
    assert (Hshape : exists evs3, evsx = pre ++ [EvCreate (first_request functions msgs) rc0]
                                        ++ evs3
                                  /\ pick listing_of evs3 = []).
    { destruct rc0 as [c|e].
      - destruct Hrc as (evs3 & Hanswer & Hevsx). exists evs3. split; [exact Hevsx|].
        exact (chat_answer_quiet_listing _ _ _ _ _ _ Hanswer).
      - destruct Hrc as [_ Hevsx]. exists []. split; [exact Hevsx | reflexivity]. }
    destruct Hshape as (evs3 & Hevsx & Hnone3). subst evsx.
    rewrite llm_calls_made_app, Hql in Hfirst. cbn in Hfirst.
    injection Hfirst as Hrequest _.
    rewrite !pick_app. unfold listings_made in Hlist. rewrite Hlist, Hnone3.
    split; [reflexivity|]. split; [exact Hconv|]. split; [exact Hspread|].
    rewrite <- Hrequest, Hmsgs. reflexivity.
Qed.

(** *** LLM calls of an exchange *)

Lemma chat_answer_llm_calls (msgs : list ChatMessage) (c : Completion)
    (w w1 : World S) (r : outcome Response) (evs : list Event) :
  chat_answer env msgs c w = (r, w1, evs) ->
  llm_calls_made evs = []
  \/ exists request rc,
       llm_calls_made evs = [(request, rc)]
       /\ tools request = None /\ tool_choice request = None.
Proof.
  intro H. unfold chat_answer, bind, lift in H.
  destruct (first_message c) as [m|e]; [|inversion H; left; reflexivity].
  destruct (has_tool_calls m); [|inversion H; left; reflexivity].
  destruct (run_tool_calls env _ [] [] w) as [[rl wl] evl] eqn:Hloop.
  destruct (run_tool_calls_log env _ _ _ _ _ _ _ Hloop) as [Hllm _].
  destruct rl as [[toolResults toolCalls]|e].
  - unfold openai_chat_completions_create in H.
    destruct (completions_create env _ (outside wl)) as [rf s].
    right. eexists _, rf.
    destruct rf as [followUp|e];
      [destruct (first_message followUp)|];
      inversion H; subst; cbn; rewrite llm_calls_made_app, Hllm;
      repeat split; reflexivity.
  - inversion H; subst. left. exact Hllm.
Qed.

(** *** A Tool Host call that throws *)

Lemma run_tool_calls_failure (tool_calls : list ToolCall) :
  forall (toolResults toolCalls : list value) (w w1 : World S)
         (r : outcome (list value * list value)) (evs : list Event)
         (name arguments : value) (e : exn),
    run_tool_calls env tool_calls toolResults toolCalls w = (r, w1, evs) ->
    In (name, arguments, Throw e) (tool_calls_made evs) ->
    r = Throw e
    /\ exists earlier, tool_calls_made evs = earlier ++ [(name, arguments, Throw e)].
Proof.
  induction tool_calls as [|toolCall rest IH];
    intros toolResults toolCalls w w1 r evs name arguments e H Hin.
  - inversion H; subst. destruct Hin.
  - cbn [run_tool_calls] in H. unfold bind, lift in H.
    destruct (JSON_parse env _) as [toolArgs|e0].
    2:{ inversion H; subst. destruct Hin. }
    destruct (mcpClient_callTool env (VStr (fn_name (tc_function toolCall))) toolArgs w)
      as [[rc wc] evc] eqn:Hcall.
    destruct (mcpClient_callTool_cases env _ _ _ _ _ _ Hcall) as [[Hnil [e0 He0]] | Hev];
      subst.
    { inversion H; subst. destruct Hin. }
    destruct rc as [toolResult|e0].
    2:{ inversion H; subst. cbn in Hin. destruct Hin as [Hin | []].
        injection Hin as Hn Ha He. subst. split; [reflexivity|].
        exists []. reflexivity. }
    destruct (result_text env toolResult) as [resultText|e0].
    2:{ inversion H; subst. cbn in Hin. destruct Hin as [Hin | []]. discriminate Hin. }
    destruct (run_tool_calls env rest _ _ wc) as [[r2 w2] evs2] eqn:Hrest.
    inversion H; subst. cbn in Hin. destruct Hin as [Hin | Hin]; [discriminate Hin|].
    destruct (IH _ _ _ _ _ _ _ _ _ Hrest Hin) as [Hr [earlier Hearlier]].
    split; [exact Hr|].
    exists ((VStr (fn_name (tc_function toolCall)), toolArgs, Ok toolResult) :: earlier).
    change (tool_calls_made (EvCallTool (VStr (fn_name (tc_function toolCall))) toolArgs
                               (Ok toolResult) :: evs2))
      with ((VStr (fn_name (tc_function toolCall)), toolArgs, Ok toolResult)
            :: tool_calls_made evs2).
    rewrite Hearlier. reflexivity.
Qed.

Lemma chat_answer_failure (msgs : list ChatMessage) (c : Completion)
    (w w1 : World S) (r : outcome Response) (evs : list Event)
    (name arguments : value) (e : exn) :
  chat_answer env msgs c w = (r, w1, evs) ->
  In (name, arguments, Throw e) (tool_calls_made evs) ->
  r = Throw e
  /\ llm_calls_made evs = []
  /\ exists earlier, tool_calls_made evs = earlier ++ [(name, arguments, Throw e)].
Proof.
  intros H Hin. unfold chat_answer, bind, lift in H.
  destruct (first_message c) as [m|e0]; [|inversion H; subst; destruct Hin].
  destruct (has_tool_calls m); [|inversion H; subst; destruct Hin].
  destruct (run_tool_calls env _ [] [] w) as [[rl wl] evl] eqn:Hloop.
  destruct (run_tool_calls_log env _ _ _ _ _ _ _ Hloop) as [Hllm _].
  destruct rl as [[toolResults toolCalls]|e0].
  - exfalso. unfold openai_chat_completions_create in H.
    destruct (completions_create env _ (outside wl)) as [rf s].
    assert (Hsame : tool_calls_made evs = tool_calls_made evl).
    { destruct rf as [followUp|e1];
        [destruct (first_message followUp)|];
        inversion H; subst; cbn; rewrite tool_calls_made_app; cbn;
        apply app_nil_r. }
    rewrite Hsame in Hin.
    destruct (run_tool_calls_failure _ _ _ _ _ _ _ _ _ _ Hloop Hin) as [Hr _].
    discriminate Hr.
  - inversion H; subst.
    destruct (run_tool_calls_failure _ _ _ _ _ _ _ _ _ _ Hloop Hin) as [Hr Hearlier].
    injection Hr as Hr. subst e0. split; [reflexivity|]. split; assumption.
Qed.

Lemma chat_answer_follow_up_failure (msgs : list ChatMessage) (c : Completion)
    (w w1 : World S) (r : outcome Response) (evs : list Event)
    (request : CompletionRequest) (e : exn) :
  chat_answer env msgs c w = (r, w1, evs) ->
  In (request, Throw e) (llm_calls_made evs) ->
  r = Throw e.
Proof.
  intros H Hin. unfold chat_answer, bind, lift in H.
  destruct (first_message c) as [m|e0]; [|inversion H; subst; destruct Hin].
  destruct (has_tool_calls m); [|inversion H; subst; destruct Hin].
  destruct (run_tool_calls env _ [] [] w) as [[rl wl] evl] eqn:Hloop.
  destruct (run_tool_calls_log env _ _ _ _ _ _ _ Hloop) as [Hllm _].
  destruct rl as [[toolResults toolCalls]|e0].
  - unfold openai_chat_completions_create in H.
    destruct (completions_create env _ (outside wl)) as [rf s].
    destruct rf as [followUp|e1].
    + exfalso.
      destruct (first_message followUp); inversion H; subst;
        rewrite !llm_calls_made_app, Hllm in Hin; cbn in Hin;
        destruct Hin as [Hin | []]; discriminate Hin.
    + inversion H; subst. rewrite llm_calls_made_app, Hllm in Hin. cbn in Hin.
      destruct Hin as [Hin | []]. injection Hin as _ He. subst. reflexivity.
  - inversion H; subst. rewrite Hllm in Hin. destruct Hin.
Qed.

Lemma chat_answer_tool_calls_requested (msgs : list ChatMessage) (c : Completion)
    (w w1 : World S) (r : outcome Response) (evs : list Event) :
  chat_answer env msgs c w = (r, w1, evs) ->
  tool_calls_made evs <> [] ->
  exists m tool_calls,
    first_message c = Ok m
    /\ am_tool_calls m = Some tool_calls
    /\ length (tool_calls_made evs) <= length tool_calls.
Proof.
  intros H Hsome.
  destruct (first_message c) as [m|e] eqn:Hm.
  2:{ unfold chat_answer, bind, lift in H. rewrite Hm in H. inversion H; subst.
      contradiction Hsome. reflexivity. }
  destruct (am_tool_calls m) as [tool_calls|] eqn:Htc.
  - exists m, tool_calls. split; [reflexivity|]. split; [exact Htc|].
    destruct (chat_answer_log env _ _ _ _ _ _ _ _ Hm Htc H) as [k Hk].
    rewrite <- (Forall2_length Hk), length_firstn. apply Nat.le_min_r.
  - rewrite (chat_answer_plain env _ _ _ _ Hm) in H.
    + inversion H; subst. contradiction Hsome. reflexivity.
    + apply has_tool_calls_none. left. exact Htc.
Qed.

(** *** The tool loop, run *)

Lemma chat_setup_connected (req_body : value) (w ws : World S)
    (setup : list value * list ChatMessage) (pre : list Event) :
  chat_setup env req_body w = (Ok setup, ws, pre) -> mcpClient ws <> None.
Proof.
  intro H. unfold chat_setup, bind, lift, ret in H.
  destruct (destructure req_body "message") as [message|e]; [|discriminate H].
  destruct (destructure req_body "history") as [history|e]; [|discriminate H].
  destruct (ensure_client env w) as [[r0 w0] evs0] eqn:Hens.
  destruct r0 as [u|e]; [|discriminate H].
  unfold mcpClient_listTools, on_client in H.
  destruct (mcpClient w0) as [client|] eqn:Hclient; [|discriminate H].
  destruct (client_listTools env (outside w0)) as [rl s].
  destruct rl as [mcpTools|e]; [|discriminate H].
  destruct (convertMCPToolsToOpenAI mcpTools) as [fs|e]; [|discriminate H].
  destruct (spread (default_history history)) as [past|e]; [|discriminate H].
  inversion H; subst. cbn. discriminate.
Qed.

(** The loop makes one Tool Host call per request, in the listed order,
    and goes on until the list is exhausted or a step throws. *)
Lemma run_tool_calls_run (tool_calls : list ToolCall) :
  forall (toolResults toolCalls : list value) (w w1 : World S)
         (r : outcome (list value * list value)) (evs : list Event),
    mcpClient w <> None ->
    run_tool_calls env tool_calls toolResults toolCalls w = (r, w1, evs) ->
    exists rounds ending not_served,
      tool_calls = map round_call rounds ++ stopped_at ending ++ not_served
      /\ Forall (round_ok env) rounds
      /\ end_ok env ending
      /\ evs = map event_of rounds ++ end_events ending
      /\ match ending with
         | AllServed =>
             not_served = []
             /\ r = Ok (toolResults ++ map turn_of rounds,
                        toolCalls ++ map record_of rounds)
         | _ => exists e, end_error ending = Some e /\ r = Throw e
         end.
Proof.
  induction tool_calls as [|toolCall rest IH];
    intros toolResults toolCalls w w1 r evs Hclient H.
  - inversion H; subst. exists [], AllServed, []. cbn. rewrite !app_nil_r.
    repeat split; constructor.
  - cbn [run_tool_calls] in H. unfold bind, lift in H. fold (argument_text toolCall) in H.
    destruct (JSON_parse env (argument_text toolCall)) as [toolArgs|e] eqn:Hparse.
    2:{ inversion H; subst. exists [], (ParseThrew toolCall e), rest.
        split; [reflexivity|]. split; [constructor|]. split; [exact Hparse|].
        split; [reflexivity|]. exists e. split; reflexivity. }
    destruct (mcpClient w) as [client|] eqn:Hc; [|contradiction].
    rewrite (mcpClient_callTool_run env _ _ w client Hc), Hc in H.
    destruct (client_callTool env (VStr (fn_name (tc_function toolCall))) toolArgs
                (outside w)) as [rc s].
    destruct rc as [toolResult|e].
    2:{ inversion H; subst. exists [], (CallThrew toolCall toolArgs e), rest.
        split; [reflexivity|]. split; [constructor|]. split; [exact Hparse|].
        split; [reflexivity|]. exists e. split; reflexivity. }
    destruct (result_text env toolResult) as [resultText|e] eqn:Htext.
    2:{ inversion H; subst. exists [], (TextThrew toolCall toolArgs toolResult e), rest.
        split; [reflexivity|]. split; [constructor|].
        split; [split; assumption|].
        split; [reflexivity|]. exists e. split; reflexivity. }
    destruct (run_tool_calls env rest
                (toolResults ++ [tool_turn toolCall resultText])
                (toolCalls ++ [tool_record (fn_name (tc_function toolCall)) toolArgs resultText])
                (mkWorld (Some client) (mcpTransport w) s)) as [[r2 w2] evs2] eqn:Hrest.
    cbv beta iota in H. injection H as Hr0 Hw0 Hevs0. subst r w1 evs.
    assert (Hclient2 : mcpClient (mkWorld (Some client) (mcpTransport w) s) <> None)
      by (cbn; discriminate).
    destruct (IH _ _ _ _ _ _ Hclient2 Hrest)
      as (rounds & ending & not_served & Hlist & Hok & Hend & Hevs & Hr).
    exists (mkRound toolCall toolArgs toolResult resultText :: rounds), ending, not_served.
    split; [cbn; rewrite Hlist; reflexivity|].
    split; [constructor; [split; assumption | exact Hok]|].
    split; [exact Hend|].
    split; [rewrite Hevs; reflexivity|].
    destruct ending; try exact Hr.
    destruct Hr as [Hns Hr]. split; [exact Hns|].
    rewrite Hr. cbn. rewrite <- !app_assoc. reflexivity.
Qed.

(** From the first completion to the answer, when the completion lists
    tool invocations. *)
Lemma chat_answer_run (msgs : list ChatMessage) (c : Completion)
    (m : AssistantMessage) (tool_calls : list ToolCall)
    (w w1 : World S) (r : outcome Response) (evs : list Event) :
  first_message c = Ok m ->
  am_tool_calls m = Some tool_calls ->
  tool_calls <> [] ->
  mcpClient w <> None ->
  chat_answer env msgs c w = (r, w1, evs) ->
  exists rounds ending not_served tail,
    tool_calls = map round_call rounds ++ stopped_at ending ++ not_served
    /\ Forall (round_ok env) rounds
    /\ end_ok env ending
    /\ evs = map event_of rounds ++ end_events ending ++ tail
    /\ match ending with
       | AllServed =>
           not_served = []
           /\ exists rf,
                tail = [EvCreate (mkCompletionRequest "gpt-4o-mini"
                                    (msgs ++ [Assistant m]
                                     ++ map Plain (map turn_of rounds))
                                    None None) rf]
                /\ r = match follow_up_message rf with
                       | Ok m2 =>
                           Ok (mkResponse 200
                                 (chat_body (text_or (am_content m2)
                                               (text_or (am_content m) ""))
                                            (map record_of rounds)))
                       | Throw e => Throw e
                       end
       | _ => exists e, end_error ending = Some e /\ r = Throw e /\ tail = []
       end.
Proof.
  intros Hm Htc Hne Hclient H. unfold chat_answer, bind, lift in H.
  rewrite Hm, (has_tool_calls_some m tool_calls Htc Hne), Htc in H.
  destruct (run_tool_calls env tool_calls [] [] w) as [[rl wl] evl] eqn:Hloop.
  destruct (run_tool_calls_run _ _ _ _ _ _ _ Hclient Hloop)
    as (rounds & ending & not_served & Hlist & Hok & Hend & Hevl & Hrl).
  assert (Hfail : forall e, rl = Throw e -> r = Throw e /\ evs = evl).
  { intros e He. subst rl. inversion H. split; reflexivity. }
  destruct ending as [|toolCall e|toolCall toolArgs e|toolCall toolArgs toolResult e].
  - clear Hfail. destruct Hrl as [Hns Hrl]. subst rl. cbn [app] in H.
    unfold openai_chat_completions_create in H.
    destruct (completions_create env _ (outside wl)) as [rf s].
    exists rounds, AllServed, not_served,
      [EvCreate (mkCompletionRequest "gpt-4o-mini"
                   (msgs ++ [Assistant m] ++ map Plain (map turn_of rounds))
                   None None) rf].
    split; [exact Hlist|]. split; [exact Hok|]. split; [exact I|].
    assert (Hshape : evs = evl ++ [EvCreate (mkCompletionRequest "gpt-4o-mini"
                                      (msgs ++ [Assistant m]
                                       ++ map Plain (map turn_of rounds))
                                      None None) rf]
                     /\ r = match follow_up_message rf with
                            | Ok m2 =>
                                Ok (mkResponse 200
                                      (chat_body (text_or (am_content m2)
                                                    (text_or (am_content m) ""))
                                                 (map record_of rounds)))
                            | Throw e => Throw e
                            end).
    { unfold follow_up_message.
      destruct rf as [followUp|e]; cbn [obind];
        [destruct (first_message followUp) as [m2|e]|];
        inversion H; subst; cbn; rewrite ?app_nil_r; split; reflexivity. }
    destruct Hshape as [Hevs Hr].
    split; [rewrite Hevs, Hevl, <- app_assoc; reflexivity|].
    split; [exact Hns|]. exists rf. split; [reflexivity | exact Hr].
  - destruct Hrl as (e0 & He0 & Hrl). destruct (Hfail _ Hrl) as [Hr Hevs].
    exists rounds, (ParseThrew toolCall e), not_served, [].
    split; [exact Hlist|]. split; [exact Hok|]. split; [exact Hend|].
    split; [rewrite Hevs, Hevl; reflexivity|].
    exists e0. split; [exact He0|]. split; [exact Hr | reflexivity].
  - destruct Hrl as (e0 & He0 & Hrl). destruct (Hfail _ Hrl) as [Hr Hevs].
    exists rounds, (CallThrew toolCall toolArgs e), not_served, [].
    split; [exact Hlist|]. split; [exact Hok|]. split; [exact Hend|].
    split; [rewrite Hevs, Hevl; reflexivity|].
    exists e0. split; [exact He0|]. split; [exact Hr | reflexivity].
  - destruct Hrl as (e0 & He0 & Hrl). destruct (Hfail _ Hrl) as [Hr Hevs].
    exists rounds, (TextThrew toolCall toolArgs toolResult e), not_served, [].
    split; [exact Hlist|]. split; [exact Hok|]. split; [exact Hend|].
    split; [rewrite Hevs, Hevl; reflexivity|].
    exists e0. split; [exact He0|]. split; [exact Hr | reflexivity].
Qed.

(** The handler, seen from its log, with the client object known to be
    in place when the first completion arrives. *)
Lemma chat_handler_after_first_completion (req_body : value) (w w' : World S)
    (r : outcome Response) (evs : list Event)
    (request : CompletionRequest) (c : Completion) :
  chat_handler env req_body w = (r, w', evs) ->
  hd_error (llm_calls_made evs) = Some (request, Ok c) ->
  exists pre w2 ra evs3 post,
    quiet pre
    /\ mcpClient w2 <> None
    /\ chat_answer env (messages request) c w2 = (ra, w', evs3)
    /\ evs = pre ++ [EvCreate request (Ok c)] ++ evs3 ++ post
    /\ match ra with
       | Ok resp => r = Ok resp /\ post = []
       | Throw e => r = Ok (mkResponse 500 (error_body e))
                    /\ post = [EvConsoleError "Error in chat:" e]
       end.
Proof.
  intros H Hfirst. rewrite chat_handler_run in H.
  destruct (chat_exchange env req_body w) as [[rx wx] evsx] eqn:Hx.
  assert (Hpost : exists post,
             evs = evsx ++ post /\ w' = wx
             /\ llm_calls_made post = []
             /\ match rx with
                | Ok resp => r = Ok resp /\ post = []
                | Throw e => r = Ok (mkResponse 500 (error_body e))
                             /\ post = [EvConsoleError "Error in chat:" e]
                end).
  { destruct rx; inversion H; subst.
    - exists []. rewrite app_nil_r. repeat split; reflexivity.
    - eexists. repeat split; reflexivity. }
  destruct Hpost as (post & Hevs & Hw & Hpost_llm & Hr). subst evs w'. clear H.
  rewrite llm_calls_made_app, Hpost_llm, app_nil_r in Hfirst.
  destruct (chat_exchange_cases _ _ _ _ _ Hx)
    as [(e & _ & Hsetup) | (functions & msgs & ws & pre & rc0 & s & Hsetup & _ & Hrc)];
    destruct (chat_setup_quiet env _ _ _ _ _ Hsetup) as [Hqt Hql].
  - rewrite Hql in Hfirst. discriminate Hfirst.
  - pose proof (chat_setup_connected _ _ _ _ _ Hsetup) as Hclient.
    destruct rc0 as [c0|e].
    + destruct Hrc as (evs3 & Hanswer & Hevsx). subst evsx.
      rewrite llm_calls_made_app, Hql in Hfirst. cbn in Hfirst.
      injection Hfirst as Hrequest Hc. subst request c0.
      exists pre, (mkWorld (mcpClient ws) (mcpTransport ws) s), rx, evs3, post.
      split; [split; assumption|]. split; [exact Hclient|].
      split; [exact Hanswer|]. split; [|exact Hr].
      rewrite <- !app_assoc. reflexivity.
    + destruct Hrc as [_ Hevsx]. subst evsx.
      rewrite llm_calls_made_app, Hql in Hfirst. discriminate Hfirst.
Qed.

End Logs.

(** From the [app.listen] callback on, no request makes the service try
    to connect again, whether or not that first attempt succeeded: the
    log of every handled request is free of connection attempts. *)
Theorem serving_never_reconnects
    {S : Type} (env : Env S) (w0 w w' : World S) (q : Request)
    (r : outcome Response) (evs : list Event) :
  serving env w0 w ->
  route env q w = (r, w', evs) ->
  connects_made evs = [].
Proof.
  intros Hserving Hrun.
  apply (pick_none connect_of (fun ev => negb (is_connect ev))).
  - intros [] H; try reflexivity. discriminate H.
  - apply (route_emits_no_connect env q w r w' evs); [|exact Hrun].
    apply connected_iff. exact (serving_connected env w0 w Hserving).
Qed.

Lemma serving_never_reconnects_witness :
  let env := Scenario.env None in
  let w0 := Scenario.fresh false [] in
  let w := snd (fst (on_listening env w0)) in
  serving env w0 w
  /\ connects_made (snd (route env GET_api_tools w)) = [].
Proof.
  cbv zeta.
  assert (Hserving : serving (Scenario.env None) (Scenario.fresh false [])
                       (snd (fst (on_listening (Scenario.env None)
                                    (Scenario.fresh false []))))).
  { eapply serving_listening. reflexivity. }
  split; [exact Hserving|].
  eapply (serving_never_reconnects (Scenario.env None) _ _ _ GET_api_tools).
  - exact Hserving.
  - reflexivity.
Defined.

(** From the [app.listen] callback on, GET /api/health answers
    [connected: true] and [openaiConfigured: true] at every request,
    whatever happened to the connection and whatever requests were handled
    in between. *)
Theorem health_while_serving
    {S : Type} (env : Env S) (w0 w : World S) :
  serving env w0 w ->
  health_handler env w
  = (Ok (mkResponse 200
           (VObj [("status", VStr "ok");
                  ("connected", VBool true);
                  ("openaiConfigured", VBool true)])),
     w, []).
Proof.
  intro Hserving. unfold health_handler, res_json, ret, openaiConfigured.
  rewrite (serving_connected env w0 w Hserving), (OPENAI_API_KEY_nonempty env).
  reflexivity.
Qed.

Lemma health_while_serving_witness :
  let env := Scenario.env None in
  let w0 := Scenario.fresh false [] in
  let w := snd (fst (route env (POST_api_chat (VObj [("message", VStr "Hi")]))
                       (snd (fst (on_listening env w0))))) in
  serving env w0 w
  /\ fst (fst (health_handler env w))
     = Ok (mkResponse 200
             (VObj [("status", VStr "ok");
                    ("connected", VBool true);
                    ("openaiConfigured", VBool true)])).
Proof.
  cbv zeta.
  assert (Hserving : serving (Scenario.env None) (Scenario.fresh false [])
            (snd (fst (route (Scenario.env None)
                         (POST_api_chat (VObj [("message", VStr "Hi")]))
                         (snd (fst (on_listening (Scenario.env None)
                                      (Scenario.fresh false [])))))))).
  { eapply (serving_request _ _ (POST_api_chat (VObj [("message", VStr "Hi")])));
      [eapply serving_listening; reflexivity | reflexivity]. }
  split; [exact Hserving|].
  rewrite (health_while_serving (Scenario.env None) _ _ Hserving). reflexivity.
Defined.

(** Every route answers, with status 200 or 500 and nothing else: no
    handler lets an error escape.  A 500 answer carries the message of the
    error that was thrown, and the last thing the handler did was to write
    that error to the console. *)
Theorem route_always_answers
    {S : Type} (env : Env S) (q : Request) (w : World S) :
  exists resp,
    fst (fst (route env q w)) = Ok resp
    /\ (status resp = 200
        \/ exists e label before,
             resp = mkResponse 500 (VObj [("error", VStr (exn_message e))])
             /\ snd (route env q w) = before ++ [EvConsoleError label e]).
Proof.
  destruct q as [|req_body|req_body|]; cbn [route].
  - destruct (try_catch_answers
                (ensure_client env ;;; tools <- mcpClient_listTools env ;; res_json tools)
                "Error listing tools:" w) as (resp & Hresp & Hstatus).
    { apply answers_200_bind. intros _. apply answers_200_bind. intro tools.
      apply answers_200_res_json. }
    exists resp. split; [exact Hresp|].
    destruct Hstatus as [H200 | (e & before & Hr & Hevs)]; [left; exact H200|].
    right. exists e, "Error listing tools:", before. split; assumption.
  - destruct (try_catch_answers
                (name <- lift (destructure req_body "name") ;;
                 args <- lift (destructure req_body "arguments") ;;
                 ensure_client env ;;;
                 result <- mcpClient_callTool env name (or_else args (VObj [])) ;;
                 res_json (CallToolResult_value result))
                "Error calling tool:" w) as (resp & Hresp & Hstatus).
    { apply answers_200_bind. intro name. apply answers_200_bind. intro args.
      apply answers_200_bind. intros _. apply answers_200_bind. intro result.
      apply answers_200_res_json. }
    exists resp. split; [exact Hresp|].
    destruct Hstatus as [H200 | (e & before & Hr & Hevs)]; [left; exact H200|].
    right. exists e, "Error calling tool:", before. split; assumption.
  - destruct (try_catch_answers (chat_exchange env req_body) "Error in chat:" w
                (answers_200_chat_exchange env req_body)) as (resp & Hresp & Hstatus).
    exists resp. split; [exact Hresp|].
    destruct Hstatus as [H200 | (e & before & Hr & Hevs)]; [left; exact H200|].
    right. exists e, "Error in chat:", before. split; assumption.
  - eexists. split; [reflexivity|]. left. reflexivity.
Qed.

(** GET /api/tools is a passthrough.  Once past the client
    initialisation, the handler asks the Tool Host for its catalog exactly
    once and answers 200 with the catalog as it came, or 500 with the
    message of the error the listing threw; it makes no tool call and no
    LLM call. *)
Theorem tools_lists_once_and_passes_through
    {S : Type} (env : Env S) (w : World S) :
  channel_ready env w ->
  exists r,
    listings_made (snd (tools_handler env w)) = [r]
    /\ fst (fst (tools_handler env w))
       = Ok (match r with
             | Ok tools => mkResponse 200 tools
             | Throw e => mkResponse 500 (VObj [("error", VStr (exn_message e))])
             end)
    /\ tool_calls_made (snd (tools_handler env w)) = []
    /\ llm_calls_made (snd (tools_handler env w)) = [].
Proof.
  intro Hready.
  destruct (tools_handler_run env w Hready) as (w1 & pre & r & s & Hens & _ & Hrun).
  pose proof (ensure_client_lists_nothing env _ _ _ _ Hens) as Hnone.
  destruct (ensure_client_quiet env _ _ _ _ Hens) as [Hqt Hql].
  exists r. rewrite Hrun. unfold listings_made in *.
  destruct r as [tools|e]; cbn [fst snd];
    rewrite pick_app, tool_calls_made_app, llm_calls_made_app, Hnone, Hqt, Hql;
    repeat split; reflexivity.
Qed.

Lemma tools_lists_once_and_passes_through_witness :
  let env := Scenario.env None in
  let w := Scenario.started true [] in
  channel_ready env w
  /\ exists r,
       listings_made (snd (tools_handler env w)) = [r]
       /\ fst (fst (tools_handler env w))
          = Ok (match r with
                | Ok tools => mkResponse 200 tools
                | Throw e => mkResponse 500 (VObj [("error", VStr (exn_message e))])
                end)
       /\ tool_calls_made (snd (tools_handler env w)) = []
       /\ llm_calls_made (snd (tools_handler env w)) = [].
Proof.
  cbv zeta. split.
  - left. reflexivity.
  - apply (tools_lists_once_and_passes_through (Scenario.env None)
             (Scenario.started true [])).
    left. reflexivity.
Defined.

(** POST /api/tools/call forwards a truthy [arguments] value unchanged,
    whatever its type: once past the client initialisation, the handler
    makes exactly one Tool Host call, with the body's [name] and
    [arguments] as they came, and answers with what the Tool Host
    answered. *)
Theorem tools_call_forwards_truthy_arguments
    {S : Type} (env : Env S) (fields : list (string * value)) (w : World S) :
  channel_ready env w ->
  truthy (field "arguments" fields) = true ->
  exists r,
    tool_calls_made (snd (tools_call_handler env (VObj fields) w))
    = [(field "name" fields, field "arguments" fields, r)]
    /\ fst (fst (tools_call_handler env (VObj fields) w))
       = Ok (match r with
             | Ok result => mkResponse 200 (CallToolResult_value result)
             | Throw e => mkResponse 500 (VObj [("error", VStr (exn_message e))])
             end).
Proof.
  intros Hready Htruthy.
  destruct (tools_call_handler_run env fields w Hready)
    as (w1 & pre & r & s & _ & [Hpre _] & _ & Hrun).
  unfold or_else in Hrun. rewrite Htruthy in Hrun.
  exists r. rewrite Hrun.
  destruct r as [result|e]; cbn [fst snd]; rewrite tool_calls_made_app, Hpre;
    split; reflexivity.
Qed.

Lemma tools_call_forwards_truthy_arguments_witness :
  let env := Scenario.env None in
  let w := Scenario.started true [] in
  let fields := [("name", VStr "echo"); ("arguments", VStr "not an object")] in
  channel_ready env w
  /\ truthy (field "arguments" fields) = true
  /\ exists r,
       tool_calls_made (snd (tools_call_handler env (VObj fields) w))
       = [(VStr "echo", VStr "not an object", r)].
Proof.
  cbv zeta. split; [left; reflexivity|]. split; [reflexivity|].
  destruct (tools_call_forwards_truthy_arguments (Scenario.env None)
              [("name", VStr "echo"); ("arguments", VStr "not an object")]
              (Scenario.started true []))
    as (r & Hcalls & _).
  - left. reflexivity.
  - reflexivity.
  - exists r. exact Hcalls.
Defined.

(** A POST request without a body ([req.body] is [undefined] or [null])
    is answered 500 by both POST handlers: the destructuring throws a
    TypeError inside the [try] block, before the client is initialised and
    before any collaborator is contacted; the world is left as it was and
    the only event is the console line of the [catch]. *)
Theorem post_without_body_is_rejected
    {S : Type} (env : Env S) (req_body : value) (w : World S) :
  present req_body = false ->
  (exists msg,
     tools_call_handler env req_body w
     = (Ok (mkResponse 500 (VObj [("error", VStr msg)])), w,
        [EvConsoleError "Error calling tool:" (TypeError msg)]))
  /\ (exists msg,
        chat_handler env req_body w
        = (Ok (mkResponse 500 (VObj [("error", VStr msg)])), w,
           [EvConsoleError "Error in chat:" (TypeError msg)])).
Proof.
  intro H. destruct req_body; try discriminate H;
    split; eexists; reflexivity.
Qed.

Lemma post_without_body_is_rejected_witness :
  present VUndef = false
  /\ exists msg,
       chat_handler (Scenario.env None) VUndef (Scenario.started true [])
       = (Ok (mkResponse 500 (VObj [("error", VStr msg)])), Scenario.started true [],
          [EvConsoleError "Error in chat:" (TypeError msg)]).
Proof.
  split; [reflexivity|].
  exact (proj2 (post_without_body_is_rejected (Scenario.env None) VUndef
                  (Scenario.started true []) eq_refl)).
Defined.

(** First use without a channel.  In a world where the client object was
    never constructed, a request that makes the handler connect, with the
    connection attempt throwing, is answered 500 with the message of that
    error by each of the three routes; nothing but the connection attempt
    is made, and the client and transport objects stay assigned. *)
Theorem first_use_connect_failure
    {S : Type} (env : Env S) (w : World S) (e : exn) (s : S)
    (fields : list (string * value)) :
  mcpClient w = None ->
  client_connect env (the_transport env) (outside w) = (Throw e, s) ->
  let w1 := mkWorld (Some the_client) (Some (the_transport env)) s in
  let answer := Ok (mkResponse 500 (VObj [("error", VStr (exn_message e))])) in
  let log label :=
    [EvConnect (the_transport env) (Throw e);
     EvConsoleError "Failed to connect to MCP server:" e;
     EvConsoleError label e] in
  tools_handler env w = (answer, w1, log "Error listing tools:")
  /\ tools_call_handler env (VObj fields) w = (answer, w1, log "Error calling tool:")
  /\ chat_handler env (VObj fields) w = (answer, w1, log "Error in chat:").
Proof.
  intros Hnone Hfail. cbv zeta.
  assert (Hens : ensure_client env w
                 = (Throw e, mkWorld (Some the_client) (Some (the_transport env)) s,
                    [EvConnect (the_transport env) (Throw e);
                     EvConsoleError "Failed to connect to MCP server:" e])).
  { unfold ensure_client. rewrite Hnone, initMCPClient_run, Hfail. reflexivity. }
  split; [|split].
  - unfold tools_handler, try_catch, bind. rewrite Hens. reflexivity.
  - unfold tools_call_handler, try_catch, bind, lift.
    cbn [destructure get_prop]. cbv beta iota. rewrite Hens. reflexivity.
  - unfold chat_handler, chat_exchange, chat_setup, try_catch, bind, lift.
    cbn [destructure get_prop]. cbv beta iota. rewrite Hens. reflexivity.
Qed.

Lemma first_use_connect_failure_witness :
  let env := Scenario.env None in
  let w := Scenario.fresh false [] in
  let e := Error "spawn /app/venv/bin/python ENOENT" in
  mcpClient w = None
  /\ client_connect env (the_transport env) (outside w) = (Throw e, outside w)
  /\ fst (fst (tools_handler env w))
     = Ok (mkResponse 500 (VObj [("error", VStr "spawn /app/venv/bin/python ENOENT")])).
Proof.
  cbv zeta. split; [reflexivity|]. split; [reflexivity|].
  destruct (first_use_connect_failure (Scenario.env None) (Scenario.fresh false [])
              (Error "spawn /app/venv/bin/python ENOENT")
              (outside (Scenario.fresh false [])) [] eq_refl eq_refl)
    as (Htools & _ & _).
  rewrite Htools. reflexivity.
Defined.

(** The message list of the first LLM call: the fixed system turn, then
    the caller's history element by element (nothing when the body has no
    [history]; one message per code point when it is a string), then the
    user turn carrying the body's [message] as it came.  The model is
    always "gpt-4o-mini". *)
Theorem chat_first_request_messages
    {S : Type} (env : Env S) (fields : list (string * value)) (w w' : World S)
    (r : outcome Response) (evs : list Event)
    (request : CompletionRequest) (rc : outcome Completion) :
  chat_handler env (VObj fields) w = (r, w', evs) ->
  hd_error (llm_calls_made evs) = Some (request, rc) ->
  exists past,
    spread (default_history (field "history" fields)) = Ok past
    /\ model request = "gpt-4o-mini"
    /\ messages request
       = system_turn
         :: map Plain past
         ++ [Plain (VObj [("role", VStr "user"); ("content", field "message" fields)])].
Proof.
  intros H Hfirst.
  destruct (chat_first_request env _ _ _ _ _ _ _ H Hfirst)
    as (mcpTools & functions & past & _ & _ & Hspread & Hrequest).
  exists past. subst request. split; [exact Hspread|]. split; reflexivity.
Qed.

Lemma chat_first_request_messages_witness :
  let env := Scenario.env None in
  let fields := [("message", VStr "And now?");
                 ("history", VArr [VObj [("role", VStr "user"); ("content", VStr "Hi")];
                                   VObj [("role", VStr "assistant");
                                         ("content", VStr "Hello!")]])] in
  let run := chat_handler env (VObj fields) (Scenario.started true [Scenario.says "Fine."]) in
  exists request rc,
    hd_error (llm_calls_made (snd run)) = Some (request, rc)
    /\ messages request
       = [system_turn;
          Plain (VObj [("role", VStr "user"); ("content", VStr "Hi")]);
          Plain (VObj [("role", VStr "assistant"); ("content", VStr "Hello!")]);
          Plain (VObj [("role", VStr "user"); ("content", VStr "And now?")])].
Proof.
  cbv zeta. eexists _, _. split; [reflexivity|].
  destruct (chat_first_request_messages (Scenario.env None)
              [("message", VStr "And now?");
               ("history", VArr [VObj [("role", VStr "user"); ("content", VStr "Hi")];
                                 VObj [("role", VStr "assistant");
                                       ("content", VStr "Hello!")]])]
              (Scenario.started true [Scenario.says "Fine."])
              _ _ _ _ _ eq_refl eq_refl)
    as (past & Hspread & _ & Hmessages).
  injection Hspread as Hpast. subst past. exact Hmessages.
Defined.

(** The functions offered with the first LLM call are the translation of
    the one catalog listing the exchange made: when the translated catalog
    is not empty, the request carries it with [tool_choice: "auto"]; when
    it is empty, the request carries neither member. *)
Theorem chat_first_request_offers_catalog
    {S : Type} (env : Env S) (fields : list (string * value)) (w w' : World S)
    (r : outcome Response) (evs : list Event)
    (request : CompletionRequest) (rc : outcome Completion) :
  chat_handler env (VObj fields) w = (r, w', evs) ->
  hd_error (llm_calls_made evs) = Some (request, rc) ->
  exists mcpTools functions,
    listings_made evs = [Ok mcpTools]
    /\ convertMCPToolsToOpenAI mcpTools = Ok functions
    /\ tools request = match functions with [] => None | _ :: _ => Some functions end
    /\ tool_choice request = match functions with [] => None | _ :: _ => Some "auto" end.
Proof.
  intros H Hfirst.
  destruct (chat_first_request env _ _ _ _ _ _ _ H Hfirst)
    as (mcpTools & functions & past & Hlist & Hconv & _ & Hrequest).
  exists mcpTools, functions. subst request.
  split; [exact Hlist|]. split; [exact Hconv|].
  destruct functions; split; reflexivity.
Qed.

Lemma chat_first_request_offers_catalog_witness :
  let env := Scenario.env None in
  let run := chat_handler env (VObj [("message", VStr "Hi")])
               (Scenario.started true [Scenario.says "Hello!"]) in
  exists request rc,
    hd_error (llm_calls_made (snd run)) = Some (request, rc)
    /\ tools request = Some [Catalog.declaration ToolHost.echo_descriptor]
    /\ tool_choice request = Some "auto".
Proof.
  cbv zeta. eexists _, _. split; [reflexivity|].
  destruct (chat_first_request_offers_catalog (Scenario.env None)
              [("message", VStr "Hi")]
              (Scenario.started true [Scenario.says "Hello!"])
              _ _ _ _ _ eq_refl eq_refl)
    as (mcpTools & functions & Hlist & Hconv & Htools & Hchoice).
  injection Hlist as Hlist. subst mcpTools.
  injection Hconv as Hconv. subst functions.
  split; [exact Htools | exact Hchoice].
Defined.

(** One round of tool delegation at most: a chat request makes at most two
    LLM calls, and the second one never offers functions, so tool
    invocations the follow-up response may ask for are not served. *)
Theorem chat_makes_at_most_two_llm_calls
    {S : Type} (env : Env S) (req_body : value) (w : World S) :
  length (llm_calls_made (snd (chat_handler env req_body w))) <= 2
  /\ forall request rc,
       nth_error (llm_calls_made (snd (chat_handler env req_body w))) 1
       = Some (request, rc) ->
       tools request = None /\ tool_choice request = None.
Proof.
  rewrite chat_handler_run.
  destruct (chat_exchange env req_body w) as [[rx wx] evsx] eqn:Hx.
  assert (Hsame : llm_calls_made
                    (snd (match rx with
                          | Ok resp => (Ok resp, wx, evsx)
                          | Throw e =>
                              (Ok (mkResponse 500 (error_body e)), wx,
                               evsx ++ [EvConsoleError "Error in chat:" e])
                          end)) = llm_calls_made evsx).
  { destruct rx; cbn [snd]; [reflexivity|].
    rewrite llm_calls_made_app. apply app_nil_r. }
  rewrite Hsame. clear Hsame.
  destruct (chat_exchange_cases env _ _ _ _ _ Hx)
    as [(e & _ & Hsetup) | (functions & msgs & ws & pre & rc0 & s & Hsetup & _ & Hrc)];
    destruct (chat_setup_quiet env _ _ _ _ _ Hsetup) as [_ Hql].
  - rewrite Hql. split; [cbn; lia | intros request rc Hnth; discriminate Hnth].
  - destruct rc0 as [c|e].
    + destruct Hrc as (evs3 & Hanswer & Hevsx). subst evsx.
      rewrite !llm_calls_made_app, Hql. cbn [app llm_calls_made pick llm_call_of].
      destruct (chat_answer_llm_calls env _ _ _ _ _ _ Hanswer)
        as [Hnone | (request2 & rc2 & Hone & Htools & Hchoice)].
      * rewrite Hnone. split; [cbn; lia | intros request rc Hnth; discriminate Hnth].
      * rewrite Hone. split; [cbn; lia|].
        intros request rc Hnth. injection Hnth as Hrequest _. subst request.
        split; assumption.
    + destruct Hrc as [_ Hevsx]. subst evsx.
      rewrite llm_calls_made_app, Hql.
      split; [cbn; lia | intros request rc Hnth; discriminate Hnth].
Qed.

(** When the first LLM call throws, the chat request is answered 500 with
    the message of that error; no Tool Host call and no further LLM call
    is made. *)
Theorem chat_llm_failure_is_reported
    {S : Type} (env : Env S) (req_body : value) (w w' : World S)
    (r : outcome Response) (evs : list Event)
    (request : CompletionRequest) (e : exn) :
  chat_handler env req_body w = (r, w', evs) ->
  hd_error (llm_calls_made evs) = Some (request, Throw e) ->
  r = Ok (mkResponse 500 (VObj [("error", VStr (exn_message e))]))
  /\ tool_calls_made evs = []
  /\ llm_calls_made evs = [(request, Throw e)].
Proof.
  intros H Hfirst. rewrite chat_handler_run in H.
  destruct (chat_exchange env req_body w) as [[rx wx] evsx] eqn:Hx.
  destruct (chat_exchange_cases env _ _ _ _ _ Hx)
    as [(e0 & Hrx & Hsetup) | (functions & msgs & ws & pre & rc0 & s & Hsetup & _ & Hrc)];
    destruct (chat_setup_quiet env _ _ _ _ _ Hsetup) as [Hqt Hql].
  - subst rx. inversion H; subst. rewrite llm_calls_made_app, Hql in Hfirst.
    discriminate Hfirst.
  - destruct rc0 as [c|e0].
    + exfalso. destruct Hrc as (evs3 & _ & Hevsx). subst evsx.
      destruct rx; inversion H; subst;
        rewrite <- ?app_assoc, llm_calls_made_app, Hql in Hfirst;
        discriminate Hfirst.
    + destruct Hrc as [Hrx Hevsx]. subst rx evsx. inversion H; subst.
      rewrite <- app_assoc, llm_calls_made_app, Hql in Hfirst. cbn in Hfirst.
      injection Hfirst as Hrequest He. subst.
      rewrite <- app_assoc, tool_calls_made_app, llm_calls_made_app, Hqt, Hql.
      repeat split; reflexivity.
Qed.

Lemma chat_llm_failure_is_reported_witness :
  let env := Scenario.env None in
  let run := chat_handler env (VObj [("message", VStr "Hi")]) (Scenario.started true []) in
  fst (fst run) = Ok (mkResponse 500 (VObj [("error", VStr "Connection error.")]))
  /\ tool_calls_made (snd run) = [].
Proof.
  cbv zeta.
  destruct (chat_llm_failure_is_reported (Scenario.env None)
              (VObj [("message", VStr "Hi")]) (Scenario.started true [])
              _ _ _ _ (Error "Connection error.") eq_refl eq_refl)
    as (Hr & Htools & _).
  split; [exact Hr | exact Htools].
Defined.

(** A Tool Host call that throws ends the exchange: it is the last Tool
    Host call of the log, no follow-up LLM call is made, and the chat
    request is answered 500 with the message of the error the call threw. *)
Theorem chat_tool_failure_stops_exchange
    {S : Type} (env : Env S) (req_body : value) (w w' : World S)
    (r : outcome Response) (evs : list Event)
    (name arguments : value) (e : exn) :
  chat_handler env req_body w = (r, w', evs) ->
  In (name, arguments, Throw e) (tool_calls_made evs) ->
  r = Ok (mkResponse 500 (VObj [("error", VStr (exn_message e))]))
  /\ (exists earlier, tool_calls_made evs = earlier ++ [(name, arguments, Throw e)])
  /\ length (llm_calls_made evs) = 1.
Proof.
  intros H Hin. rewrite chat_handler_run in H.
  destruct (chat_exchange env req_body w) as [[rx wx] evsx] eqn:Hx.
  assert (Hsame : tool_calls_made evs = tool_calls_made evsx
                  /\ llm_calls_made evs = llm_calls_made evsx).
  { destruct rx; inversion H; subst; [split; reflexivity|].
    rewrite tool_calls_made_app, llm_calls_made_app. cbn. rewrite !app_nil_r.
    split; reflexivity. }
  destruct Hsame as [Htools Hllm]. rewrite Htools in *. rewrite Hllm. clear Htools Hllm.
  destruct (chat_exchange_cases env _ _ _ _ _ Hx)
    as [(e0 & Hrx & Hsetup) | (functions & msgs & ws & pre & rc0 & s & Hsetup & _ & Hrc)];
    destruct (chat_setup_quiet env _ _ _ _ _ Hsetup) as [Hqt Hql].
  - rewrite Hqt in Hin. destruct Hin.
  - destruct rc0 as [c|e0].
    + destruct Hrc as (evs3 & Hanswer & Hevsx). subst evsx.
      rewrite !tool_calls_made_app, Hqt in Hin. cbn in Hin.
      destruct (chat_answer_failure env _ _ _ _ _ _ _ _ _ Hanswer Hin)
        as (Hrx & Hllm3 & earlier & Hearlier).
      subst rx. inversion H; subst.
      rewrite !tool_calls_made_app, !llm_calls_made_app, Hqt, Hql, Hllm3.
      split; [reflexivity|]. split; [|reflexivity].
      exists earlier. exact Hearlier.
    + destruct Hrc as [_ Hevsx]. subst evsx.
      rewrite tool_calls_made_app, Hqt in Hin. destruct Hin.
Qed.

Lemma chat_tool_failure_stops_exchange_witness :
  let env := Scenario.env None in
  let calls := [Scenario.echo_call "call_1" "a";
                mkToolCall "call_2" (mkFunctionCall "nope" "{}");
                Scenario.echo_call "call_3" "b"] in
  let run := chat_handler env (VObj [("message", VStr "Echo a, nope, echo b")])
               (Scenario.started true [Scenario.asks calls; Scenario.says "unused"]) in
  fst (fst run)
  = Ok (mkResponse 500 (VObj [("error", VStr "MCP error -32603: Unknown tool: nope")]))
  /\ length (tool_calls_made (snd run)) = 2
  /\ length (llm_calls_made (snd run)) = 1.
Proof.
  cbv zeta.
  destruct (chat_tool_failure_stops_exchange (Scenario.env None)
              (VObj [("message", VStr "Echo a, nope, echo b")])
              (Scenario.started true
                 [Scenario.asks [Scenario.echo_call "call_1" "a";
                                 mkToolCall "call_2" (mkFunctionCall "nope" "{}");
                                 Scenario.echo_call "call_3" "b"];
                  Scenario.says "unused"])
              _ _ _ (VStr "nope") (VObj [])
              (mkExn "McpError" "MCP error -32603: Unknown tool: nope")
              eq_refl (or_intror (or_introl eq_refl)))
    as (Hr & _ & Hllm).
  split; [exact Hr|]. split; [reflexivity | exact Hllm].
Defined.

(** A [history] that cannot be spread (anything but an array, a string or
    an absent member) makes the chat request fail with a 500 answer
    before any LLM call and any Tool Host call. *)
Theorem chat_rejects_non_iterable_history
    {S : Type} (env : Env S) (fields : list (string * value)) (w : World S) (e : exn) :
  spread (default_history (field "history" fields)) = Throw e ->
  llm_calls_made (snd (chat_handler env (VObj fields) w)) = []
  /\ tool_calls_made (snd (chat_handler env (VObj fields) w)) = []
  /\ exists e',
       fst (fst (chat_handler env (VObj fields) w))
       = Ok (mkResponse 500 (VObj [("error", VStr (exn_message e'))])).
Proof.
  intro Hspread. rewrite chat_handler_run.
  destruct (chat_exchange env (VObj fields) w) as [[rx wx] evsx] eqn:Hx.
  destruct (chat_exchange_cases env _ _ _ _ _ Hx)
    as [(e0 & Hrx & Hsetup) | (functions & msgs & ws & pre & rc0 & s & Hsetup & _ & _)].
  - destruct (chat_setup_quiet env _ _ _ _ _ Hsetup) as [Hqt Hql]. subst rx.
    cbn [fst snd]. rewrite llm_calls_made_app, tool_calls_made_app, Hqt, Hql.
    split; [reflexivity|]. split; [reflexivity|]. exists e0. reflexivity.
  - destruct (chat_setup_ok env _ _ _ _ _ _ Hsetup) as (mcpTools & past & _ & _ & Hok & _).
    rewrite Hspread in Hok. discriminate Hok.
Qed.

Lemma chat_rejects_non_iterable_history_witness :
  let fields := [("message", VStr "Hi"); ("history", VNum "7")] in
  let run := chat_handler (Scenario.env None) (VObj fields)
               (Scenario.started true [Scenario.says "unused"]) in
  spread (default_history (field "history" fields))
  = Throw (TypeError "history is not iterable")
  /\ llm_calls_made (snd run) = []
  /\ fst (fst run) = Ok (mkResponse 500 (VObj [("error", VStr "history is not iterable")])).
Proof.
  cbv zeta. split; [reflexivity|].
  destruct (chat_rejects_non_iterable_history (Scenario.env None)
              [("message", VStr "Hi"); ("history", VNum "7")]
              (Scenario.started true [Scenario.says "unused"])
              (TypeError "history is not iterable") eq_refl)
    as (Hllm & _ & _).
  split; [exact Hllm | reflexivity].
Defined.

(** *** Catalog translation on arbitrary catalogs *)

Lemma convert_tool_present (tool : value) :
  (exists d, convert_tool tool = Ok d) <-> present tool = true.
Proof.
  split.
  - intros [d H]. destruct tool; try reflexivity; discriminate H.
  - intro H. unfold convert_tool.
    destruct (ToolHostMore.get_prop_present tool "name" H) as [n Hn].
    destruct (ToolHostMore.get_prop_present tool "description" H) as [d Hd].
    destruct (ToolHostMore.get_prop_present tool "inputSchema" H) as [i Hi].
    rewrite Hn, Hd, Hi. eexists. reflexivity.
Qed.

Lemma map_outcome_convert (items : list value) :
  (exists declared, map_outcome convert_tool items = Ok declared)
  <-> forallb present items = true.
Proof.
  induction items as [|tool rest IH]; cbn [map_outcome forallb].
  - split; [reflexivity | intros _; eexists; reflexivity].
  - split.
    + intros [declared H].
      destruct (convert_tool tool) as [d|e] eqn:Htool; [|discriminate H].
      cbn [obind] in H.
      destruct (map_outcome convert_tool rest) as [ds|e] eqn:Hrest; [|discriminate H].
      apply andb_true_intro. split.
      * apply convert_tool_present. exists d. exact Htool.
      * apply IH. exists ds. reflexivity.
    + intro H. apply andb_prop in H as [Htool Hrest].
      apply convert_tool_present in Htool as [d Hd].
      apply IH in Hrest as [ds Hds].
      rewrite Hd. cbn [obind]. rewrite Hds. eexists. reflexivity.
Qed.

Lemma map_outcome_pointwise {A B} (f : A -> outcome B) (l : list A) :
  forall l', map_outcome f l = Ok l' -> Forall2 (fun x y => f x = Ok y) l l'.
Proof.
  induction l as [|x rest IH]; intros l' H.
  - inversion H. constructor.
  - cbn [map_outcome] in H. destruct (f x) as [y|e] eqn:Hx; [|discriminate H].
    cbn [obind] in H. destruct (map_outcome f rest) as [ys|e]; [|discriminate H].
    inversion H; subst. constructor; [exact Hx | apply IH; reflexivity].
Qed.

(** The catalog translation completes exactly when the listing has a
    [tools] member that is an array none of whose elements is [undefined]
    or [null]; in every other case it throws.  The shape of the elements
    is not checked otherwise. *)
Theorem convertMCPToolsToOpenAI_succeeds_iff (mcpTools : value) :
  (exists declared, convertMCPToolsToOpenAI mcpTools = Ok declared)
  <-> exists items,
        get_prop mcpTools "tools" = Ok (VArr items) /\ forallb present items = true.
Proof.
  unfold convertMCPToolsToOpenAI. split.
  - intros [declared H].
    destruct (get_prop mcpTools "tools") as [tools|e]; [|discriminate H].
    cbn [obind] in H. destruct tools; try discriminate H.
    eexists. split; [reflexivity|]. apply map_outcome_convert. exists declared. exact H.
  - intros (items & Hget & Hpresent). rewrite Hget. cbn [obind].
    apply map_outcome_convert. exact Hpresent.
Qed.

(** When the catalog translation completes, it returns one declaration per
    descriptor, in the order of the catalog: the i-th declaration is the
    translation of the i-th descriptor. *)
Theorem convertMCPToolsToOpenAI_keeps_order
    (mcpTools : value) (declared : list value) :
  convertMCPToolsToOpenAI mcpTools = Ok declared ->
  exists items,
    get_prop mcpTools "tools" = Ok (VArr items)
    /\ length declared = length items
    /\ Forall2 (fun tool declaration => convert_tool tool = Ok declaration)
               items declared.
Proof.
  unfold convertMCPToolsToOpenAI. intro H.
  destruct (get_prop mcpTools "tools") as [tools|e]; [|discriminate H].
  cbn [obind] in H. destruct tools; try discriminate H.
  exists items. split; [reflexivity|].
  pose proof (map_outcome_pointwise _ _ _ H) as Hall.
  split; [symmetry; exact (Forall2_length Hall) | exact Hall].
Qed.

Lemma convertMCPToolsToOpenAI_keeps_order_witness :
  let listing := VObj [("tools", VArr [VObj [("name", VStr "b"); ("description", VNull)];
                                       VObj [("name", VStr "a")]])] in
  exists declared,
    convertMCPToolsToOpenAI listing = Ok declared
    /\ length declared = 2.
Proof.
  cbv zeta. eexists. split; [reflexivity|].
  destruct (convertMCPToolsToOpenAI_keeps_order
              (VObj [("tools", VArr [VObj [("name", VStr "b"); ("description", VNull)];
                                     VObj [("name", VStr "a")]])])
              _ eq_refl)
    as (items & Hget & Hlen & _).
  injection Hget as Hitems. subst items. exact Hlen.
Defined.

(** *** The two programs together *)

(** The text the chat handler records for an echo result is the echoed
    text itself, for every message: the result of the Tool Host's echo
    call always has a first block with a non-empty [text], so the JSON
    fallback is never taken. *)
Theorem result_text_of_echo
    {S : Type} (env : Env S) (s : string) (w : ToolHost.HostWorld) :
  exists result,
    fst (ToolHost.CallTool_handler "echo" (VObj [("message", VStr s)]) w) = Ok result
    /\ result_text env result = Ok (VStr ("Echo: " +++ s)).
Proof.
  eexists. split; reflexivity.
Qed.

(** Through the tool-call endpoint of the Bridge Service wired to the
    Tool Host of index.js: for every string [s], the request
    [{ name: "echo", arguments: { message: s } }] is answered 200 with the
    single text block "Echo: " followed by [s], by one Tool Host call, and
    the world is left as it was. *)
Theorem tools_call_echo_end_to_end
    (key : option string) (script : list (outcome Completion)) (s : string) :
  tools_call_handler (Scenario.env key)
    (VObj [("name", VStr "echo"); ("arguments", VObj [("message", VStr s)])])
    (Scenario.started true script)
  = (Ok (mkResponse 200
           (VObj [("content",
                    VArr [VObj [("type", VStr "text");
                                ("text", VStr ("Echo: " +++ s))]])])),
     Scenario.started true script,
     [EvCallTool (VStr "echo") (VObj [("message", VStr s)])
        (Ok (mkCallToolResult
               (Some [VObj [("type", VStr "text"); ("text", VStr ("Echo: " +++ s))]])
               []))]).
Proof. reflexivity. Qed.

(** Through the same endpoint, a request for any other tool name with an
    argument object is answered 500, and the error text is the Tool
    Host's message, which names the requested tool, behind the prefix the
    protocol client puts before it. *)
Theorem tools_call_unknown_tool_end_to_end
    (key : option string) (script : list (outcome Completion))
    (n : string) (arguments : list (string * value)) :
  n <> "echo" ->
  fst (fst (tools_call_handler (Scenario.env key)
              (VObj [("name", VStr n); ("arguments", VObj arguments)])
              (Scenario.started true script)))
  = Ok (mkResponse 500
          (VObj [("error", VStr ("MCP error -32603: Unknown tool: " +++ n))])).
Proof.
  intro Hn. apply String.eqb_neq in Hn.
  unfold tools_call_handler, try_catch, bind, lift.
  cbn [destructure get_prop field lookup String.eqb Ascii.eqb Bool.eqb].
  cbv beta iota.
  unfold ensure_client, mcpClient_callTool, on_client.
  cbn [Scenario.started mcpClient outside mcpTransport].
  cbn [client_callTool Scenario.env Scenario.callTool or_else truthy].
  unfold ToolHost.CallTool_handler. rewrite Hn. reflexivity.
Qed.

Lemma tools_call_unknown_tool_end_to_end_witness :
  "Echo" <> "echo"
  /\ fst (fst (tools_call_handler (Scenario.env None)
                 (VObj [("name", VStr "Echo");
                        ("arguments", VObj [("message", VStr "hi")])])
                 (Scenario.started true [])))
     = Ok (mkResponse 500
             (VObj [("error", VStr "MCP error -32603: Unknown tool: Echo")])).
Proof.
  split; [discriminate|].
  apply (tools_call_unknown_tool_end_to_end None [] "Echo"). discriminate.
Defined.

(** *** More on the chat exchange *)

(** The chat handler calls the Tool Host's call operation only at the LLM
    backend's request: when the log holds a Tool Host call, the first LLM
    call completed with a message that lists tool invocations, and the
    calls made are no more than the invocations listed. *)
Theorem chat_calls_tools_only_on_request
    {S : Type} (env : Env S) (req_body : value) (w w' : World S)
    (r : outcome Response) (evs : list Event) :
  chat_handler env req_body w = (r, w', evs) ->
  tool_calls_made evs <> [] ->
  exists request c m tool_calls,
    hd_error (llm_calls_made evs) = Some (request, Ok c)
    /\ first_message c = Ok m
    /\ am_tool_calls m = Some tool_calls
    /\ length (tool_calls_made evs) <= length tool_calls.
Proof.
  intros H Hsome. rewrite chat_handler_run in H.
  destruct (chat_exchange env req_body w) as [[rx wx] evsx] eqn:Hx.
  assert (Hsame : tool_calls_made evs = tool_calls_made evsx
                  /\ llm_calls_made evs = llm_calls_made evsx).
  { destruct rx; inversion H; subst; [split; reflexivity|].
    rewrite tool_calls_made_app, llm_calls_made_app. cbn. rewrite !app_nil_r.
    split; reflexivity. }
  destruct Hsame as [Htools Hllm]. rewrite Htools in *. rewrite Hllm. clear Htools Hllm.
  destruct (chat_exchange_cases env _ _ _ _ _ Hx)
    as [(e0 & Hrx & Hsetup) | (functions & msgs & ws & pre & rc0 & s & Hsetup & _ & Hrc)];
    destruct (chat_setup_quiet env _ _ _ _ _ Hsetup) as [Hqt Hql].
  - contradiction.
  - destruct rc0 as [c|e0].
    + destruct Hrc as (evs3 & Hanswer & Hevsx). subst evsx.
      rewrite !tool_calls_made_app, Hqt in Hsome. cbn in Hsome.
      destruct (chat_answer_tool_calls_requested env _ _ _ _ _ _ Hanswer Hsome)
        as (m & tool_calls & Hm & Htc & Hle).
      exists (first_request functions msgs), c, m, tool_calls.
      rewrite !tool_calls_made_app, llm_calls_made_app, Hqt, Hql.
      split; [reflexivity|]. split; [exact Hm|]. split; [exact Htc | exact Hle].
    + destruct Hrc as [_ Hevsx]. subst evsx.
      rewrite tool_calls_made_app, Hqt in Hsome. contradiction Hsome. reflexivity.
Qed.

Lemma chat_calls_tools_only_on_request_witness :
  let env := Scenario.env None in
  let calls := [Scenario.echo_call "call_1" "a"; Scenario.echo_call "call_2" "b"] in
  let run := chat_handler env (VObj [("message", VStr "Echo a, then b")])
               (Scenario.started true [Scenario.asks calls; Scenario.says "Both echoed."]) in
  tool_calls_made (snd run) <> []
  /\ exists request c m tool_calls,
       hd_error (llm_calls_made (snd run)) = Some (request, Ok c)
       /\ first_message c = Ok m
       /\ am_tool_calls m = Some tool_calls
       /\ length (tool_calls_made (snd run)) <= length tool_calls.
Proof.
  cbv zeta. split; [discriminate|].
  apply (chat_calls_tools_only_on_request (Scenario.env None)
           (VObj [("message", VStr "Echo a, then b")])
           (Scenario.started true
              [Scenario.asks [Scenario.echo_call "call_1" "a";
                              Scenario.echo_call "call_2" "b"];
               Scenario.says "Both echoed."])
           _ _ _ eq_refl).
  discriminate.
Defined.

(** Arguments that do not parse are not guarded: when the arguments text
    of the first requested invocation makes [JSON.parse] throw, no Tool
    Host call is made for any of the requested invocations, no follow-up
    LLM call is made, and the chat request is answered 500 with the
    message of the parse error. *)
Theorem chat_unparsable_arguments_fail_exchange
    {S : Type} (env : Env S) (req_body : value) (w w' : World S)
    (r : outcome Response) (evs : list Event)
    (request : CompletionRequest) (c : Completion) (m : AssistantMessage)
    (toolCall : ToolCall) (others : list ToolCall) (e : exn) :
  chat_handler env req_body w = (r, w', evs) ->
  hd_error (llm_calls_made evs) = Some (request, Ok c) ->
  first_message c = Ok m ->
  am_tool_calls m = Some (toolCall :: others) ->
  JSON_parse env (argument_text toolCall) = Throw e ->
  r = Ok (mkResponse 500 (VObj [("error", VStr (exn_message e))]))
  /\ tool_calls_made evs = []
  /\ llm_calls_made evs = [(request, Ok c)].
Proof.
  intros H Hfirst Hm Htc Hparse.
  destruct (chat_handler_first_completion env _ _ _ _ _ _ _ H Hfirst)
    as (pre & w2 & ra & evs3 & post & [Hqt Hql] & Hanswer & Hevs & Hra).
  assert (Hrun : chat_answer env (messages request) c w2 = (Throw e, w2, [])).
  { unfold chat_answer, bind, lift. rewrite Hm.
    rewrite (has_tool_calls_some m _ Htc ltac:(discriminate)), Htc.
    cbn [run_tool_calls]. unfold bind, lift. fold (argument_text toolCall).
    rewrite Hparse. reflexivity. }
  rewrite Hrun in Hanswer. inversion Hanswer; subst ra w2 evs3.
  destruct Hra as [Hr Hpost]. subst r post evs.
  rewrite !tool_calls_made_app, !llm_calls_made_app, Hqt, Hql.
  repeat split; reflexivity.
Qed.

Lemma chat_unparsable_arguments_fail_exchange_witness :
  let env := Scenario.env None in
  let call := mkToolCall "call_1" (mkFunctionCall "echo" "{message: hi") in
  let run := chat_handler env (VObj [("message", VStr "Echo hi")])
               (Scenario.started true [Scenario.asks [call]; Scenario.says "unused"]) in
  JSON_parse env (argument_text call)
  = Throw (mkExn "SyntaxError" "Unexpected token in JSON")
  /\ fst (fst run) = Ok (mkResponse 500 (VObj [("error", VStr "Unexpected token in JSON")]))
  /\ tool_calls_made (snd run) = [].
Proof.
  cbv zeta. split; [reflexivity|].
  destruct (chat_unparsable_arguments_fail_exchange (Scenario.env None)
              (VObj [("message", VStr "Echo hi")])
              (Scenario.started true
                 [Scenario.asks [mkToolCall "call_1" (mkFunctionCall "echo" "{message: hi")];
                  Scenario.says "unused"])
              _ _ _ _ _ _ _ _ (mkExn "SyntaxError" "Unexpected token in JSON")
              eq_refl eq_refl eq_refl eq_refl eq_refl)
    as (Hr & Htools & _).
  split; [exact Hr | exact Htools].
Defined.

(** No partial result is salvaged: when the follow-up LLM call throws,
    the chat request is answered 500 with the message of that error,
    although the requested tool invocations were carried out. *)
Theorem chat_follow_up_failure_is_reported
    {S : Type} (env : Env S) (req_body : value) (w w' : World S)
    (r : outcome Response) (evs : list Event)
    (request : CompletionRequest) (e : exn) :
  chat_handler env req_body w = (r, w', evs) ->
  nth_error (llm_calls_made evs) 1 = Some (request, Throw e) ->
  r = Ok (mkResponse 500 (VObj [("error", VStr (exn_message e))])).
Proof.
  intros H Hsecond. rewrite chat_handler_run in H.
  destruct (chat_exchange env req_body w) as [[rx wx] evsx] eqn:Hx.
  assert (Hsame : llm_calls_made evs = llm_calls_made evsx).
  { destruct rx; inversion H; subst; [reflexivity|].
    rewrite llm_calls_made_app. apply app_nil_r. }
  rewrite Hsame in Hsecond. clear Hsame.
  destruct (chat_exchange_cases env _ _ _ _ _ Hx)
    as [(e0 & Hrx & Hsetup) | (functions & msgs & ws & pre & rc0 & s & Hsetup & _ & Hrc)];
    destruct (chat_setup_quiet env _ _ _ _ _ Hsetup) as [Hqt Hql].
  - rewrite Hql in Hsecond. discriminate Hsecond.
  - destruct rc0 as [c|e0].
    + destruct Hrc as (evs3 & Hanswer & Hevsx). subst evsx.
      rewrite !llm_calls_made_app, Hql in Hsecond. cbn in Hsecond.
      assert (Hin : In (request, Throw e) (llm_calls_made evs3)).
      { destruct (llm_calls_made evs3) as [|call rest]; [discriminate Hsecond|].
        injection Hsecond as Hcall. subst call. left. reflexivity. }
      rewrite (chat_answer_follow_up_failure env _ _ _ _ _ _ _ _ Hanswer Hin) in H.
      inversion H. reflexivity.
    + destruct Hrc as [_ Hevsx]. subst evsx.
      rewrite llm_calls_made_app, Hql in Hsecond. discriminate Hsecond.
Qed.

Lemma chat_follow_up_failure_is_reported_witness :
  let env := Scenario.env None in
  let run := chat_handler env (VObj [("message", VStr "Echo hi")])
               (Scenario.started true [Scenario.asks [Scenario.echo_call "call_1" "hi"]]) in
  length (tool_calls_made (snd run)) = 1
  /\ fst (fst run) = Ok (mkResponse 500 (VObj [("error", VStr "Connection error.")])).
Proof.
  cbv zeta. split; [reflexivity|].
  apply (chat_follow_up_failure_is_reported (Scenario.env None)
           (VObj [("message", VStr "Echo hi")])
           (Scenario.started true [Scenario.asks [Scenario.echo_call "call_1" "hi"]])
           _ _ _ _ (Error "Connection error.") eq_refl eq_refl).
Defined.

(** *** The order of the tool invocations *)

(** C6.  For every chat exchange in which the LLM backend's first response
    lists tool invocations, the invocations are executed one after the
    other in exactly the listed order.  After the setup and the first LLM
    call, the log holds one Tool Host call per request, with the requested
    name and the parsed arguments, from the first request on, with nothing
    between them, and goes through the whole list unless a step of an
    iteration throws (parsing its arguments, the call, taking the text of
    its result), which ends the exchange with a 500 answer and leaves the
    requests after it unexecuted.  When the whole list was executed the
    follow-up LLM call comes next, carrying the tool-answer turns in that
    same order, and the toolCalls records of the 200 answer are in that
    same order too. *)
Theorem chat_tool_requests_executed_in_listed_order
    {S : Type} (env : Env S) (req_body : value) (w w' : World S)
    (r : outcome Response) (evs : list Event)
    (request : CompletionRequest) (c : Completion)
    (m : AssistantMessage) (tool_calls : list ToolCall) :
  chat_handler env req_body w = (r, w', evs) ->
  hd_error (llm_calls_made evs) = Some (request, Ok c) ->
  first_message c = Ok m ->
  am_tool_calls m = Some tool_calls ->
  tool_calls <> [] ->
  exists pre rounds ending not_served tail,
    quiet pre
    /\ tool_calls = map round_call rounds ++ stopped_at ending ++ not_served
    /\ Forall (round_ok env) rounds
    /\ end_ok env ending
    /\ evs = pre ++ [EvCreate request (Ok c)]
                 ++ map event_of rounds ++ end_events ending ++ tail
    /\ match ending with
       | AllServed =>
           not_served = []
           /\ exists followUp rf,
                messages followUp
                = messages request ++ [Assistant m] ++ map Plain (map turn_of rounds)
                /\ match follow_up_message rf with
                   | Ok m2 =>
                       tail = [EvCreate followUp rf]
                       /\ r = Ok (mkResponse 200
                                    (VObj [("content",
                                             VStr (text_or (am_content m2)
                                                     (text_or (am_content m) "")));
                                           ("toolCalls",
                                             VArr (map record_of rounds))]))
                   | Throw e =>
                       tail = [EvCreate followUp rf; EvConsoleError "Error in chat:" e]
                       /\ r = Ok (mkResponse 500
                                    (VObj [("error", VStr (exn_message e))]))
                   end
       | _ =>
           exists e,
             end_error ending = Some e
             /\ tail = [EvConsoleError "Error in chat:" e]
             /\ r = Ok (mkResponse 500 (VObj [("error", VStr (exn_message e))]))
       end.
Proof.
  intros H Hfirst Hm Htc Hne.
  destruct (chat_handler_after_first_completion env _ _ _ _ _ _ _ H Hfirst)
    as (pre & w2 & ra & evs3 & post & Hq & Hclient & Hanswer & Hevs & Hra).
  destruct (chat_answer_run env _ _ _ _ _ _ _ _ Hm Htc Hne Hclient Hanswer)
    as (rounds & ending & not_served & tail3 & Hlist & Hok & Hend & Hevs3 & Hending).
  exists pre, rounds, ending, not_served, (tail3 ++ post).
  split; [exact Hq|]. split; [exact Hlist|]. split; [exact Hok|]. split; [exact Hend|].
  split; [rewrite Hevs, Hevs3, <- !app_assoc; reflexivity|].
  destruct ending as [|toolCall e|toolCall toolArgs e|toolCall toolArgs toolResult e].
  - destruct Hending as (Hns & rf & Htail & Hr). split; [exact Hns|].
    exists (mkCompletionRequest "gpt-4o-mini"
              (messages request ++ [Assistant m] ++ map Plain (map turn_of rounds))
              None None), rf.
    split; [reflexivity|].
    subst tail3 ra. destruct (follow_up_message rf) as [m2|e];
      destruct Hra as [Hr Hpost]; subst r post; split; reflexivity.
  - destruct Hending as (e0 & He0 & Hr & Htail). subst ra tail3.
    destruct Hra as [Hr Hpost]. exists e0. subst. repeat split; assumption || reflexivity.
  - destruct Hending as (e0 & He0 & Hr & Htail). subst ra tail3.
    destruct Hra as [Hr Hpost]. exists e0. subst. repeat split; assumption || reflexivity.
  - destruct Hending as (e0 & He0 & Hr & Htail). subst ra tail3.
    destruct Hra as [Hr Hpost]. exists e0. subst. repeat split; assumption || reflexivity.
Qed.

Lemma chat_tool_requests_executed_in_listed_order_witness :
  let env := Scenario.env None in
  let calls := [Scenario.echo_call "call_1" "a"; Scenario.echo_call "call_2" "b"] in
  let run := chat_handler env (VObj [("message", VStr "Echo a, then b")])
               (Scenario.started true [Scenario.asks calls; Scenario.says "Both echoed."]) in
  map fst (tool_calls_made (snd run))
  = [(VStr "echo", VObj [("message", VStr "a")]);
     (VStr "echo", VObj [("message", VStr "b")])]
  /\ exists rounds content,
       map round_call rounds = calls
       /\ Forall (round_ok env) rounds
       /\ fst (fst run)
          = Ok (mkResponse 200
                  (VObj [("content", VStr content);
                         ("toolCalls", VArr (map record_of rounds))])).
Proof.
  cbv zeta. split; [reflexivity|].
  destruct (chat_tool_requests_executed_in_listed_order (Scenario.env None)
              (VObj [("message", VStr "Echo a, then b")])
              (Scenario.started true
                 [Scenario.asks [Scenario.echo_call "call_1" "a";
                                 Scenario.echo_call "call_2" "b"];
                  Scenario.says "Both echoed."])
              _ _ _ _ _ _ _ eq_refl eq_refl eq_refl eq_refl ltac:(discriminate))
    as (pre & rounds & ending & not_served & tail & _ & Hlist & Hok & _ & _ & Hending).
  destruct ending as [|toolCall e|toolCall toolArgs e|toolCall toolArgs toolResult e];
    try (destruct Hending as (e0 & _ & _ & Hr); discriminate Hr).
  destruct Hending as (Hns & followUp & rf & _ & Hfollow). subst not_served.
  cbn [stopped_at app] in Hlist. rewrite app_nil_r in Hlist.
  destruct (follow_up_message rf) as [m2|e0].
  - destruct Hfollow as [_ Hr]. eexists rounds, _.
    split; [symmetry; exact Hlist|]. split; [exact Hok | exact Hr].
  - destruct Hfollow as [_ Hr]. discriminate Hr.
Defined.

End BridgeMore.
